(** * SeisFlows session state: component resolution and checkpointing

    A shallow embedding of [seisflows/config.py]: the role table [NAMES],
    [save], [load], [flush], [config_logger], [custom_import] and the pair
    [_pickle_method] / [_unpickle_method] registered with [copyreg]; of
    [seisflows/plugins/solver_io/fortran_binary.py]; and of the kernel
    selection of [seisflows/workflow/noise_inversion.py].

    The Python runtime the module leans on is modelled alongside it, as
    small as the functions above need it:
    - [str] methods ([upper], [isupper], [title], [replace], [join]) on
      ASCII strings; characters outside ASCII are treated as uncased;
    - objects as trees ([pyval]): sharing and cycles between objects are
      not represented; attributes are read through [getattr], in which a
      bound method has [__func__] and [__self__], as in the Python 3 the
      module is written for;
    - [sys.modules] as a finite map from module name to value;
    - a file system as a finite map from absolute path to a directory or a
      file; paths are resolved against the working directory and are not
      normalised;
    - [json] and [pickle] as encoders to and decoders from document trees,
      with [pickle] going through the reduction registered for bound
      methods.
*)

From Stdlib Require Import ZArith Ascii String DecimalString.
From stdpp Require Import gmap strings list fin_maps sorting.

#[local] Set Warnings "-register-all".

Local Open Scope Z_scope.
Local Open Scope string_scope.

(** ** Python [str] methods (ASCII) *)

Module PyStr.

Definition code (c : ascii) : N := N_of_ascii c.

Definition is_upper (c : ascii) : bool :=
  (65 <=? code c)%N && (code c <=? 90)%N.

Definition is_lower (c : ascii) : bool :=
  (97 <=? code c)%N && (code c <=? 122)%N.

(** A cased character is one that has an upper and a lower variant. *)
Definition is_cased (c : ascii) : bool := is_upper c || is_lower c.

Definition to_upper (c : ascii) : ascii :=
  if is_lower c then ascii_of_N (code c - 32) else c.

Definition to_lower (c : ascii) : ascii :=
  if is_upper c then ascii_of_N (code c + 32) else c.

(** [s.upper()] *)
Fixpoint upper (s : string) : string :=
  match s with
  | EmptyString => EmptyString
  | String c s' => String (to_upper c) (upper s')
  end.

(** [s.lower()] *)
Fixpoint lower (s : string) : string :=
  match s with
  | EmptyString => EmptyString
  | String c s' => String (to_lower c) (lower s')
  end.

Fixpoint existsb_char (p : ascii -> bool) (s : string) : bool :=
  match s with
  | EmptyString => false
  | String c s' => p c || existsb_char p s'
  end.

Fixpoint forallb_char (p : ascii -> bool) (s : string) : bool :=
  match s with
  | EmptyString => true
  | String c s' => p c && forallb_char p s'
  end.

(** [s.isupper()]: no lowercase character and at least one cased one. *)
Definition isupper (s : string) : bool :=
  negb (existsb_char is_lower s) && existsb_char is_cased s.

(** [s.title()]: a cased character is uppercased when the character before
    it is not cased (or there is none) and lowercased otherwise; uncased
    characters are kept. *)
Fixpoint title_from (prev_cased : bool) (s : string) : string :=
  match s with
  | EmptyString => EmptyString
  | String c s' =>
      if is_cased c
      then String (if prev_cased then to_lower c else to_upper c)
                  (title_from true s')
      else String c (title_from false s')
  end.

Definition title (s : string) : string := title_from false s.

(** [s.replace(old, new)] for a one-character [old]. *)
Fixpoint replace (old : ascii) (new : string) (s : string) : string :=
  match s with
  | EmptyString => EmptyString
  | String c s' =>
      if Ascii.eqb c old then new +:+ replace old new s'
      else String c (replace old new s')
  end.

(** [sep.join(l)] *)
Fixpoint join (sep : string) (l : list string) : string :=
  match l with
  | [] => EmptyString
  | [x] => x
  | x :: rest => x +:+ sep +:+ join sep rest
  end.

(** [s.capitalize()] *)
Definition capitalize (s : string) : string :=
  match s with
  | EmptyString => EmptyString
  | String c s' => String (to_upper c) (lower s')
  end.

(** [s.split(sep)] for a one-character separator, generalised to a class of
    separator characters. *)
Fixpoint split_on (is_sep : ascii -> bool) (s : string) : list string :=
  match s with
  | EmptyString => [EmptyString]
  | String c s' =>
      if is_sep c then EmptyString :: split_on is_sep s'
      else match split_on is_sep s' with
           | w :: ws => String c w :: ws
           | [] => [String c EmptyString]
           end
  end.

Fixpoint concat (l : list string) : string :=
  match l with
  | [] => EmptyString
  | x :: rest => x +:+ concat rest
  end.

Definition starts_with_slash (s : string) : bool :=
  match s with
  | String c _ => Ascii.eqb c "/"
  | EmptyString => false
  end.

(** [sub in s] *)
Fixpoint contains (sub s : string) : bool :=
  String.prefix sub s ||
  match s with
  | EmptyString => false
  | String _ s' => contains sub s'
  end.

End PyStr.

(** ** Python values *)

(** A function object: its [__name__] and an identifier of its code. *)
Record pyfunc := PyFunc { fn_name : string; fn_code : N }.

(** An entry of a class [__dict__]: a plain function, or an attribute that
    is no descriptor (a constant). *)
Inductive class_attr :=
| AFunction (f : pyfunc)
| AData (z : Z).

(** A class object: its name, its own [__dict__], and the classes that
    follow it in its method resolution order. *)
Inductive pyclass :=
| PyClass (cls_name : string) (cls_dict : gmap string class_attr)
          (cls_ancestors : list pyclass).

Definition cls_name (c : pyclass) : string :=
  match c with PyClass n _ _ => n end.
Definition cls_dict (c : pyclass) : gmap string class_attr :=
  match c with PyClass _ d _ => d end.
Definition cls_ancestors (c : pyclass) : list pyclass :=
  match c with PyClass _ _ a => a end.

(** [cls.mro()]: the class itself, then its ancestors in resolution order. *)
Definition mro (c : pyclass) : list pyclass := c :: cls_ancestors c.

Inductive pyval :=
| VNone
| VBool (b : bool)
| VInt (z : Z)
| VStr (s : string)
| VList (l : list pyval)
| VDict (d : list (string * pyval))       (* str-keyed dict, insertion order *)
| VClass (c : pyclass)
| VFunction (f : pyfunc)
| VInstance (c : pyclass) (d : list (string * pyval))  (* __class__, __dict__ *)
| VMethod (f : pyfunc) (self : pyval).                 (* __func__, __self__ *)

Inductive exn :=
| KeyError
| TypeError
| AttributeError
| UnboundLocalError
| FileNotFoundError
| NotADirectoryError
| IsADirectoryError
| JSONDecodeError
| UnpicklingError
| EOFError
| ImportError
| SystemExit (status : Z).

Inductive outcome (A : Type) :=
| Return (a : A)
| Raise (e : exn).
Arguments Return {A} a.
Arguments Raise {A} e.

Definition obind {A B} (x : outcome A) (k : A -> outcome B) : outcome B :=
  match x with
  | Return a => k a
  | Raise e => Raise e
  end.

(** [d[k]] on a str-keyed dict kept as an association list. *)
Fixpoint assoc {A} (k : string) (d : list (string * A)) : option A :=
  match d with
  | [] => None
  | (k', x) :: rest => if String.eqb k k' then Some x else assoc k rest
  end.

(** [v[key]] *)
Definition getitem (v : pyval) (key : string) : outcome pyval :=
  match v with
  | VDict d =>
      match assoc key d with
      | Some x => Return x
      | None => Raise KeyError
      end
  | _ => Raise TypeError
  end.

(** Modelled from the spec: [seisflows.core.Null], the null sentinel that
    stands for a role that is switched off. *)
Definition Null : pyval := VClass (PyClass "Null" ∅ []).

(** Modelled from the spec: [seisflows.core.Dict], the mapping type of the
    two configuration snapshots, built from a decoded [dict]. *)
Definition Dict (v : pyval) : outcome pyval :=
  match v with
  | VDict d => Return (VDict d)
  | _ => Raise TypeError
  end.

(** ** Attribute access *)

(** The entry for [name] of the first class that has one. *)
Fixpoint find_attr (name : string) (classes : list pyclass)
  : option class_attr :=
  match classes with
  | [] => None
  | c :: rest =>
      match cls_dict c !! name with
      | Some a => Some a
      | None => find_attr name rest
      end
  end.

(** [func.__get__(obj, cls)] *)
Definition descr_get (func : class_attr) (obj : pyval) (cls : pyclass)
  : outcome pyval :=
  match func with
  | AFunction f =>
      match obj with
      | VNone => Return (VFunction f)
      | _ => Return (VMethod f obj)
      end
  | AData _ => Raise AttributeError
  end.

(** [getattr(v, name)], for the attributes the model gives its objects. A
    bound method has [__func__] and [__self__] and hands every other name
    to its function; a function has its [__name__]; a class has its
    [__name__] and what the classes of its resolution order define; an
    instance has its [__dict__] and, after it, what its class offers, a
    function bound to the instance. *)
Definition getattr (v : pyval) (name : string) : outcome pyval :=
  match v with
  | VMethod f self =>
      if String.eqb name "__func__" then Return (VFunction f)
      else if String.eqb name "__self__" then Return self
      else if String.eqb name "__name__" then Return (VStr (fn_name f))
      else Raise AttributeError
  | VFunction f =>
      if String.eqb name "__name__" then Return (VStr (fn_name f))
      else Raise AttributeError
  | VClass c =>
      if String.eqb name "__name__" then Return (VStr (cls_name c))
      else match find_attr name (mro c) with
           | Some (AFunction f) => Return (VFunction f)
           | Some (AData z) => Return (VInt z)
           | None => Raise AttributeError
           end
  | VInstance c d =>
      match assoc name d with
      | Some x => Return x
      | None =>
          match find_attr name (mro c) with
          | Some (AFunction f) => Return (VMethod f v)
          | Some (AData z) => Return (VInt z)
          | None => Raise AttributeError
          end
      end
  | _ => Raise AttributeError
  end.

(** ** The serialization adapter *)

(** The callable that [_pickle_method] hands to [pickle]. *)
Definition unpickle_method_name : string := "_unpickle_method".

(** [_pickle_method(method)]: the reconstructor and its arguments
    [(func_name, obj, cls)]. *)
Definition _pickle_method (method : pyval)
  : outcome (string * (pyval * pyval * pyval)) :=
  obind (getattr method "im_func") (fun im_func =>
  obind (getattr im_func "__name__") (fun func_name =>
  obind (getattr method "im_self") (fun obj =>
  obind (getattr method "im_class") (fun cls =>
  Return (unpickle_method_name, (func_name, obj, cls)))))).

(** The loop of [_unpickle_method] over [cls.mro()]. The loop variable is
    [cls] itself; [func] stays unassigned ([None] here) until some class
    [__dict__] has the name, and then the loop breaks. *)
Fixpoint mro_loop (func_name : string) (classes : list pyclass)
    (cls : pyclass) : pyclass * option class_attr :=
  match classes with
  | [] => (cls, None)
  | c :: rest =>
      match cls_dict c !! func_name with
      | None => mro_loop func_name rest c       (* except KeyError: pass *)
      | Some func => (c, Some func)             (* else: break *)
      end
  end.

Definition _unpickle_method (func_name : string) (obj : pyval)
    (cls : pyclass) : outcome pyval :=
  let '(cls, func) := mro_loop func_name (mro cls) cls in
  match func with
  | None => Raise UnboundLocalError
  | Some func => descr_get func obj cls
  end.

(** ** [json] and [pickle] documents *)

Definition map_outcome {A B} (f : A -> outcome B) : list A -> outcome (list B) :=
  fix go (l : list A) : outcome (list B) :=
    match l with
    | [] => Return []
    | x :: rest =>
        obind (f x) (fun y => obind (go rest) (fun ys => Return (y :: ys)))
    end.

Inductive json :=
| JNull
| JBool (b : bool)
| JInt (z : Z)
| JStr (s : string)
| JArr (items : list json)
| JObj (members : list (string * json)).

(** Order of the members of an object under [sort_keys=True]. *)
Definition member_le {A} (a b : string * A) : Prop := String.le a.1 b.1.

#[local] Instance member_le_dec {A} : RelDecision (@member_le A).
Proof. intros a b. unfold member_le. apply _. Defined.

#[local] Instance member_le_total {A} : Total (@member_le A).
Proof. intros a b. unfold member_le. apply total, _. Qed.

(** What [json.dump(v, f, sort_keys=...)] encodes: [None], [bool], [int],
    [str], [list] and str-keyed [dict]; anything else is a [TypeError]. *)
Fixpoint to_json (sort_keys : bool) (v : pyval) : outcome json :=
  match v with
  | VNone => Return JNull
  | VBool b => Return (JBool b)
  | VInt z => Return (JInt z)
  | VStr s => Return (JStr s)
  | VList l =>
      obind (map_outcome (to_json sort_keys) l) (fun js => Return (JArr js))
  | VDict d =>
      obind (map_outcome
               (fun kv => obind (to_json sort_keys kv.2)
                            (fun j => Return (kv.1, j))) d)
        (fun ms => Return (JObj (if sort_keys then merge_sort member_le ms
                                 else ms)))
  | _ => Raise TypeError
  end.

(** What [json.load] decodes a document to. *)
Fixpoint of_json (j : json) : pyval :=
  match j with
  | JNull => VNone
  | JBool b => VBool b
  | JInt z => VInt z
  | JStr s => VStr s
  | JArr l => VList (map of_json l)
  | JObj ms => VDict (map (fun kv => (kv.1, of_json kv.2)) ms)
  end.

(** A pickle stream, as the tree of what it rebuilds: classes and functions
    by name ([PGlobal]), instances as class name and state ([PObject]), and
    reductions registered through [copyreg] as callable and arguments
    ([PReduce]). *)
Inductive pickled :=
| PNone
| PBool (b : bool)
| PInt (z : Z)
| PStr (s : string)
| PList (items : list pickled)
| PDict (items : list (string * pickled))
| PGlobal (name : string)
| PObject (cls : string) (state : list (string * pickled))
| PReduce (callable : string) (args : list pickled).

(** [pickle.dumps] with [copyreg.pickle(types.MethodType, _pickle_method,
    _unpickle_method)] in force: a bound method is written as the reduction
    [_pickle_method] returns. *)
Fixpoint dumps (v : pyval) : outcome pickled :=
  match v with
  | VNone => Return PNone
  | VBool b => Return (PBool b)
  | VInt z => Return (PInt z)
  | VStr s => Return (PStr s)
  | VList l => obind (map_outcome dumps l) (fun ps => Return (PList ps))
  | VDict d =>
      obind (map_outcome
               (fun kv => obind (dumps kv.2) (fun p => Return (kv.1, p))) d)
        (fun ps => Return (PDict ps))
  | VClass c => Return (PGlobal (cls_name c))
  | VFunction f => Return (PGlobal (fn_name f))
  | VInstance c d =>
      obind (map_outcome
               (fun kv => obind (dumps kv.2) (fun p => Return (kv.1, p))) d)
        (fun ps => Return (PObject (cls_name c) ps))
  | VMethod f self =>
      (* copyreg.dispatch_table[types.MethodType] *)
      obind (_pickle_method (VMethod f self))
        (fun '(callable, (func_name, obj, cls)) =>
      obind (dumps func_name) (fun pname =>
      obind (dumps obj) (fun pobj =>
      obind (dumps cls) (fun pcls =>
      Return (PReduce callable [pname; pobj; pcls])))))
  end.

(** [pickle.loads] where [globals] are the names the unpickler can import. *)
Fixpoint loads (globals : gmap string pyval) (p : pickled) : outcome pyval :=
  match p with
  | PNone => Return VNone
  | PBool b => Return (VBool b)
  | PInt z => Return (VInt z)
  | PStr s => Return (VStr s)
  | PList l => obind (map_outcome (loads globals) l) (fun vs => Return (VList vs))
  | PDict d =>
      obind (map_outcome
               (fun kp => obind (loads globals kp.2) (fun v => Return (kp.1, v))) d)
        (fun vs => Return (VDict vs))
  | PGlobal name =>
      match globals !! name with
      | Some v => Return v
      | None => Raise AttributeError
      end
  | PObject cls state =>
      match globals !! cls with
      | Some (VClass c) =>
          obind (map_outcome
                   (fun kp => obind (loads globals kp.2)
                                (fun v => Return (kp.1, v))) state)
            (fun vs => Return (VInstance c vs))
      | Some _ => Raise TypeError
      | None => Raise AttributeError
      end
  | PReduce callable args =>
      obind (map_outcome (loads globals) args) (fun vs =>
      if String.eqb callable unpickle_method_name then
        match vs with
        | [VStr func_name; obj; VClass cls] => _unpickle_method func_name obj cls
        | _ => Raise TypeError
        end
      else Raise UnpicklingError)
  end.

(** ** The process and its file system *)

Inductive content :=
| Empty                                   (* opened for writing, nothing written *)
| JsonText (indent : nat) (doc : json)
| PickleData (p : pickled).

Inductive node :=
| Dir
| File (c : content).

Record World := mkWorld {
  sys_modules : gmap string pyval;        (* sys.modules *)
  fs : gmap string node;                  (* absolute path -> node *)
  cwd : list string;                      (* components of os.getcwd() *)
  stdout : list string;                   (* lines printed so far *)
  globals : gmap string pyval;            (* what the unpickler can import *)
}.

Definition M (A : Type) : Type := World -> outcome A * World.

Definition ret {A} (a : A) : M A := fun w => (Return a, w).
Definition raise {A} (e : exn) : M A := fun w => (Raise e, w).
Definition bind {A B} (m : M A) (k : A -> M B) : M B :=
  fun w => match m w with
           | (Return a, w') => k a w'
           | (Raise e, w') => (Raise e, w')
           end.
Definition lift {A} (x : outcome A) : M A := fun w => (x, w).

(** [try: m] with the result handed to the [except] clauses. *)
Definition try_ {A} (m : M A) : M (outcome A) :=
  fun w => let '(r, w') := m w in (Return r, w').

Notation "'let*' x ':=' c1 'in' c2" := (bind c1 (fun x => c2))
  (at level 10, x pattern, c1 at level 100, c2 at level 200).
Notation "c1 ;;; c2" := (bind c1 (fun _ => c2))
  (at level 100, c2 at level 200, right associativity).

(** [for x in l: body(x)] *)
Fixpoint for_ {A} (l : list A) (body : A -> M unit) : M unit :=
  match l with
  | [] => ret tt
  | x :: rest => body x ;;; for_ rest body
  end.

Definition set_sys_modules (sm : gmap string pyval) (w : World) : World :=
  mkWorld sm (fs w) (cwd w) (stdout w) (globals w).
Definition set_fs (f : gmap string node) (w : World) : World :=
  mkWorld (sys_modules w) f (cwd w) (stdout w) (globals w).
Definition set_stdout (out : list string) (w : World) : World :=
  mkWorld (sys_modules w) (fs w) (cwd w) out (globals w).

(** [sys.modules[name]] *)
Definition sys_modules_getitem (name : string) : M pyval :=
  fun w => match sys_modules w !! name with
           | Some v => (Return v, w)
           | None => (Raise KeyError, w)
           end.

(** [sys.modules[name] = v] *)
Definition sys_modules_setitem (name : string) (v : pyval) : M unit :=
  fun w => (Return tt, set_sys_modules (<[name := v]> (sys_modules w)) w).

(** [name in sys.modules] *)
Definition sys_modules_contains (name : string) : M bool :=
  fun w => (Return (bool_decide (is_Some (sys_modules w !! name))), w).

(** [del sys.modules[name]] *)
Definition sys_modules_delitem (name : string) : M unit :=
  fun w => match sys_modules w !! name with
           | Some _ => (Return tt, set_sys_modules (delete name (sys_modules w)) w)
           | None => (Raise KeyError, w)
           end.

(** [print(s)] *)
Definition print (s : string) : M unit :=
  fun w => (Return tt, set_stdout (stdout w ++ [s]) w).

(** [sys.exit(status)] *)
Definition sys_exit {A} (status : Z) : M A := raise (SystemExit status).

(** *** Paths *)

Fixpoint ends_with_slash (s : string) : bool :=
  match s with
  | EmptyString => false
  | String c EmptyString => Ascii.eqb c "/"
  | String _ s' => ends_with_slash s'
  end.

(** What [os.path.join(a, b)] puts in front of a relative [b]. *)
Definition join_prefix (a : string) : string :=
  match a with
  | EmptyString => EmptyString
  | _ => if ends_with_slash a then a else a +:+ "/"
  end.

(** [os.path.join(a, b)] *)
Definition os_path_join (a b : string) : string :=
  if PyStr.starts_with_slash b then b else join_prefix a +:+ b.

(** [os.getcwd()] *)
Definition getcwd (w : World) : string := "/" +:+ PyStr.join "/" (cwd w).

(** The absolute path a path denotes in [w]; no normalisation. *)
Definition resolve (w : World) (p : string) : string :=
  if PyStr.starts_with_slash p then p else os_path_join (getcwd w) p.

(** [os.path.abspath(p)] *)
Definition os_path_abspath (p : string) : M string :=
  fun w => (Return (resolve w p), w).

(** [os.path.exists(p)] *)
Definition os_path_exists (p : string) : M bool :=
  fun w => (Return (bool_decide (is_Some (fs w !! resolve w p))), w).

(** Modelled from the spec: [seisflows.tools.unix.mkdir], which creates the
    directory. *)
Definition unix_mkdir (p : string) : M unit :=
  fun w => (Return tt, set_fs (<[resolve w p := Dir]> (fs w)) w).

Definition has_slash (s : string) : bool :=
  PyStr.existsb_char (fun x => Ascii.eqb x "/") s.

(** An absolute path split after its last slash: (head, entry name). *)
Fixpoint rsplit_slash (s : string) : string * string :=
  match s with
  | EmptyString => (EmptyString, EmptyString)
  | String c s' =>
      let '(h, t) := rsplit_slash s' in
      if has_slash s' then (String c h, t)
      else if Ascii.eqb c "/" then (String c EmptyString, s')
      else (EmptyString, String c s')
  end.

(** The head without its final slash. *)
Fixpoint drop_last (s : string) : string :=
  match s with
  | EmptyString => EmptyString
  | String c EmptyString => EmptyString
  | String c s' => String c (drop_last s')
  end.

Definition is_dir (n : option node) : bool :=
  match n with
  | Some Dir => true
  | _ => false
  end.

(** The entry [key] can be created: the directory it lies in exists. *)
Definition parent_is_dir (f : gmap string node) (key : string) : bool :=
  let '(head, _) := rsplit_slash key in
  is_dir (f !! head) || is_dir (f !! drop_last head).

(** What [open] raises when the entry [key] cannot be created. *)
Definition no_parent (f : gmap string node) (key : string) : exn :=
  let '(head, _) := rsplit_slash key in
  match f !! drop_last head with
  | Some (File _) => NotADirectoryError
  | _ => FileNotFoundError
  end.

(** [open(p, "w")] or [open(p, "wb")]: the file is created or truncated;
    the handle is the absolute path. *)
Definition open_w (p : string) : M string :=
  fun w =>
    let key := resolve w p in
    match fs w !! key with
    | Some Dir => (Raise IsADirectoryError, w)
    | _ =>
        if parent_is_dir (fs w) key
        then (Return key, set_fs (<[key := File Empty]> (fs w)) w)
        else (Raise (no_parent (fs w) key), w)
    end.

(** [open(p, "r")] or [open(p, "rb")], and the content read through it. *)
Definition open_r (p : string) : M content :=
  fun w =>
    match fs w !! resolve w p with
    | Some (File c) => (Return c, w)
    | Some Dir => (Raise IsADirectoryError, w)
    | None => (Raise FileNotFoundError, w)
    end.

(** Writing through a handle, once the encoder has produced the content. *)
Definition write (handle : string) (c : content) : M unit :=
  fun w => (Return tt, set_fs (<[handle := File c]> (fs w)) w).

(** [json.dump(obj, f, sort_keys=sort_keys, indent=indent)] *)
Definition json_dump (obj : pyval) (f : string) (sort_keys : bool)
    (indent : nat) : M unit :=
  let* doc := lift (to_json sort_keys obj) in
  write f (JsonText indent doc).

(** [json.load(f)] *)
Definition json_load (f : content) : M pyval :=
  match f with
  | JsonText _ doc => ret (of_json doc)
  | _ => raise JSONDecodeError
  end.

(** [pickle.dump(obj, f)] *)
Definition pickle_dump (obj : pyval) (f : string) : M unit :=
  let* p := lift (dumps obj) in
  write f (PickleData p).

(** [pickle.load(f)] *)
Definition pickle_load (f : content) : M pyval :=
  match f with
  | PickleData p => fun w => (loads (globals w) p, w)
  | Empty => raise EOFError
  | JsonText _ _ => raise UnpicklingError
  end.

(** ** [seisflows/config.py] *)

Definition NAMES : list string :=
  ["system"; "preprocess"; "solver"; "postprocess"; "optimize"; "workflow"].

Definition save (path : string) : M unit :=
  let* present := os_path_exists path in
  (if negb present then unix_mkdir path else ret tt) ;;;
  (* Save the paths and parameters into a JSON file *)
  for_ ["seisflows_parameters"; "seisflows_paths"] (fun name =>
    let fullfile := os_path_join path (name +:+ ".json") in
    let* f := open_w fullfile in
    let* obj := sys_modules_getitem name in
    json_dump obj f true 4) ;;;
  (* Save the current workflow as pickle objects *)
  for_ NAMES (fun name =>
    let fullfile := os_path_join path ("seisflows_" +:+ name +:+ ".p") in
    let* f := open_w fullfile in
    let* obj := sys_modules_getitem ("seisflows_" +:+ name) in
    pickle_dump obj f).

Definition load (path : string) : M unit :=
  (* Load parameters and paths from a JSON file *)
  for_ ["seisflows_parameters"; "seisflows_paths"] (fun name =>
    let* dir := os_path_abspath path in
    let fullfile := os_path_join dir (name +:+ ".json") in
    let* f := open_r fullfile in
    let* v := json_load f in
    let* d := lift (Dict v) in
    sys_modules_setitem name d) ;;;
  (* Load the saved workflow from pickle objects *)
  for_ NAMES (fun name =>
    let* dir := os_path_abspath path in
    let fullfile := os_path_join dir ("seisflows_" +:+ name +:+ ".p") in
    let* f := open_r fullfile in
    let* v := pickle_load f in
    sys_modules_setitem ("seisflows_" +:+ name) v).

Definition flush : M unit :=
  for_ NAMES (fun name =>
    let mod_name := "seisflows_" +:+ name in
    let* present := sys_modules_contains mod_name in
    if present then sys_modules_delitem mod_name else ret tt).

(** The rest of the package and the import system, as [custom_import] uses
    them: [seisflows.tools.msg.cli], [seisflows.tools.wrappers.module_exists],
    [importlib.import_module] (a module object is the map of its
    attributes), [str] of an exception and of a module object. *)
Record Package := mkPackage {
  msg_cli : string -> list string -> option string -> option string -> string;
  module_exists : string -> bool;
  import_module : string -> M (gmap string pyval);
  str_exn : exn -> string;
  str_module : gmap string pyval -> string;
}.

(** The class name [custom_import] derives from the module name when no
    [classname] is given. *)
Definition camelcase_classname (module : string) : string :=
  (* Make a distinction for fully uppercase classnames, e.g. LBFGS *)
  if PyStr.isupper module then PyStr.upper module
  (* If normal classname, convert to CamelCase *)
  else PyStr.replace "_" EmptyString (PyStr.title module).

(** A method call or [str.join] on a value that may not be a [str]. *)
Definition as_str (v : pyval) (e : exn) : outcome string :=
  match v with
  | VStr s => Return s
  | _ => Raise e
  end.

Section CustomImport.

Variable pkg : Package.

Definition custom_import (name module classname : option string) : M pyval :=
  match name with
  | None =>
      print (msg_cli pkg
        ("Please check that 'custom_import' utility is being used as " +:+
         "follows: custom_import(name, module). The resulting full dotted " +:+
         "name 'seisflows.name.module' must correspond to a module " +:+
         "within this package.") [] (Some "custom import error") (Some "=")) ;;;
      sys_exit (-1)
  | Some name =>
      if negb (bool_decide (name ∈ NAMES)) then
        print (msg_cli pkg
          ("Please check that the use of custom_import(name, module, class) " +:+
           "is implemented correctly, where name must be in the following:")
          NAMES (Some "custom import error") (Some "=")) ;;;
        sys_exit (-1)
      else
        (* everything after the lookup of the configured module name *)
        let resume (module : pyval) : M pyval :=
          let* classname :=
            match classname with
            | None =>
                let* m := lift (as_str module AttributeError) in
                ret (camelcase_classname m)
            | Some classname => ret classname
            end in
          let* m := lift (as_str module TypeError) in
          let full_dotted_name := PyStr.join "." ["seisflows"; name; m] in
          if negb (module_exists pkg full_dotted_name) then
            print (msg_cli pkg
              ("The following module was not found within the package: " +:+
               "seisflows." +:+ name +:+ "." +:+ m)
              [] (Some "custom import error") (Some "=")) ;;;
            sys_exit (-1)
          else
            let* imported := try_ (import_module pkg full_dotted_name) in
            match imported with
            | Raise (SystemExit status) => raise (SystemExit status)
            | Raise e =>
                print (msg_cli pkg
                  ("Module could not be imported " +:+ full_dotted_name)
                  [str_exn pkg e] (Some "custom import error") (Some "=")) ;;;
                print "None" ;;;
                sys_exit (-1)
            | Return module =>
                match module !! classname with
                | Some cls => ret cls
                | None =>
                    print (msg_cli pkg
                      ("The following method was not found in the imported " +:+
                       "class: seisflows." +:+ name +:+ "." +:+
                       str_module pkg module +:+ "." +:+ classname)
                      [] None None) ;;;
                    sys_exit (-1)
                end
            end
        in
        match module with
        | Some m => resume (VStr m)
        | None =>
            (* Attempt to retrieve currently assigned classname from parameters *)
            let* found := try_ (let* parameters :=
                                  sys_modules_getitem "seisflows_parameters" in
                                lift (getitem parameters (PyStr.upper name))) in
            match found with
            | Raise KeyError => ret Null
            | Raise e => raise e
            | Return VNone => ret Null
            | Return module => resume module
            end
        end
  end.

End CustomImport.

(** ** Notions the properties are stated with *)

Definition is_underscore (c : ascii) : bool := Ascii.eqb c "_".

Definition is_hyphen_or_underscore (c : ascii) : bool :=
  Ascii.eqb c "-" || Ascii.eqb c "_".

(** A name made of lowercase letters and of delimiters only. *)
Definition delimited_lowercase (is_sep : ascii -> bool) (s : string) : bool :=
  PyStr.forallb_char (fun c => PyStr.is_lower c || is_sep c) s.

(** The words of a delimited name, each capitalised, concatenated. *)
Definition capitalized_words (is_sep : ascii -> bool) (s : string) : string :=
  PyStr.concat (map PyStr.capitalize (PyStr.split_on is_sep s)).

(** The attribute [custom_import] fetches from the imported module. *)
Definition class_identifier (module : string) (classname : option string)
  : string :=
  match classname with
  | Some c => c
  | None => camelcase_classname module
  end.

(** [seisflows.<name>.<module>] *)
Definition full_dotted_name (name module : string) : string :=
  PyStr.join "." ["seisflows"; name; module].

(** Calling a callable, given what the code of each function does with
    [self] and the remaining arguments. *)
Definition call (code : N -> pyval -> list pyval -> outcome pyval)
    (callable : pyval) (args : list pyval) : outcome pyval :=
  match callable with
  | VMethod f self => code (fn_code f) self args
  | VFunction f =>
      match args with
      | self :: rest => code (fn_code f) self rest
      | [] => Raise TypeError
      end
  | _ => Raise TypeError
  end.

(** The [sys.modules] key of a role. *)
Definition role_key (name : string) : string := "seisflows_" +:+ name.

(** What is left of [sys.modules] once the role entries are deleted. *)
Definition without_roles (sm : gmap string pyval) : gmap string pyval :=
  foldl (fun sm name => delete (role_key name) sm) sm NAMES.

(** *** Sample classes and objects *)

Definition base_setup : pyfunc := PyFunc "setup" 1.
Definition base_main : pyfunc := PyFunc "main" 2.
(** The inner function of a decorator: it is stored in a class under the
    name of the method it wraps, not under its own name. *)
Definition wrapper : pyfunc := PyFunc "wrapper" 3.

Definition Base : pyclass :=
  PyClass "Base"
    (<["setup" := AFunction base_setup]> {["main" := AFunction base_main]}) [].

(** [Inversion] overrides [main] with a decorated method. *)
Definition Inversion : pyclass :=
  PyClass "Inversion" {["main" := AFunction wrapper]} [Base].

Definition an_inversion : pyval := VInstance Inversion [("iteration", VInt 3)].

(** A package in which nothing can be imported. *)
Definition bare_package : Package :=
  mkPackage (fun text _ _ _ => text) (fun _ => false)
    (fun _ => raise ImportError) (fun _ => EmptyString) (fun _ => EmptyString).

(** A package whose only module is [seisflows.optimize.LBFGS], which
    defines the class [LBFGS]. *)
Definition lbfgs_package : Package :=
  mkPackage (fun text _ _ _ => text)
    (fun dotted => String.eqb dotted "seisflows.optimize.LBFGS")
    (fun _ => ret {["LBFGS" := VClass (PyClass "LBFGS" ∅ [])]})
    (fun _ => EmptyString) (fun _ => EmptyString).

Definition empty_world : World := mkWorld ∅ ∅ [] [] ∅.

(** A process in which only the parameters are registered: the solver is
    switched off and no optimizer is named. *)
Definition unconfigured_world : World :=
  mkWorld {["seisflows_parameters" := VDict [("SOLVER", VNone)]]} ∅ [] [] ∅.

(** A process with all six roles and both configuration mappings
    registered, and a checkpoint directory already on disk. *)
Definition busy_world : World :=
  mkWorld
    (<["seisflows_parameters" := VDict [("SOLVER", VStr "specfem2d")]]>
     (<["seisflows_paths" := VDict [("OUTPUT", VStr "/out")]]>
     (<["seisflows_system" := VNone]>
     (<["seisflows_preprocess" := VNone]>
     (<["seisflows_solver" := VInstance Base []]>
     (<["seisflows_postprocess" := VNone]>
     (<["seisflows_optimize" := VNone]>
     (<["seisflows_workflow" := an_inversion]> ∅))))))))
    (<["/ckpt" := Dir]> {["/ckpt/seisflows_workflow.p" := File (PickleData PNone)]})
    ["home"] [] ∅.

(** *** Checkpoints *)

(** What a checkpoint holds: one file per configuration mapping and one per
    role, in the order [save] writes and [load] reads them. *)
Inductive entry :=
| Config (name : string)
| Role (name : string).

Definition expected : list entry :=
  [Config "seisflows_parameters"; Config "seisflows_paths"] ++ map Role NAMES.

(** The file name of an entry and the [sys.modules] key it belongs to. *)
Definition entry_file (e : entry) : string :=
  match e with
  | Config name => name +:+ ".json"
  | Role name => "seisflows_" +:+ name +:+ ".p"
  end.

Definition entry_module (e : entry) : string :=
  match e with
  | Config name => name
  | Role name => role_key name
  end.

(** The absolute path of the file [file] of the checkpoint at [path]. *)
Definition entry_key (w : World) (path file : string) : string :=
  join_prefix (resolve w path) +:+ file.

(** What [save] puts into the file of an entry. *)
Definition entry_content (sm : gmap string pyval) (e : entry)
  : outcome content :=
  match sm !! entry_module e with
  | None => Raise KeyError
  | Some v =>
      match e with
      | Config _ => obind (to_json true v) (fun doc => Return (JsonText 4 doc))
      | Role _ => obind (dumps v) (fun p => Return (PickleData p))
      end
  end.

(** [save] as a fold over the entries: the file system after each file. *)
Fixpoint save_entries (sm : gmap string pyval) (prefix : string)
    (es : list entry) (f : gmap string node)
  : outcome unit * gmap string node :=
  match es with
  | [] => (Return tt, f)
  | e :: rest =>
      let key := prefix +:+ entry_file e in
      match f !! key with
      | Some Dir => (Raise IsADirectoryError, f)
      | _ =>
          if parent_is_dir f key then
            match entry_content sm e with
            | Return c => save_entries sm prefix rest (<[key := File c]> f)
            | Raise ex => (Raise ex, <[key := File Empty]> f)
            end
          else (Raise (no_parent f key), f)
      end
  end.

(** What [load] gets out of the file of an entry. *)
Definition read_entry (f : gmap string node) (g : gmap string pyval)
    (prefix : string) (e : entry) : outcome pyval :=
  match f !! (prefix +:+ entry_file e) with
  | None => Raise FileNotFoundError
  | Some Dir => Raise IsADirectoryError
  | Some (File c) =>
      match e with
      | Config _ =>
          match c with
          | JsonText _ doc => Dict (of_json doc)
          | _ => Raise JSONDecodeError
          end
      | Role _ =>
          match c with
          | PickleData p => loads g p
          | Empty => Raise EOFError
          | JsonText _ _ => Raise UnpicklingError
          end
      end
  end.

(** [load] as a fold over the entries: [sys.modules] after each file. *)
Fixpoint load_entries (f : gmap string node) (g : gmap string pyval)
    (prefix : string) (es : list entry) (sm : gmap string pyval)
  : outcome unit * gmap string pyval :=
  match es with
  | [] => (Return tt, sm)
  | e :: rest =>
      match read_entry f g prefix e with
      | Return v => load_entries f g prefix rest (<[entry_module e := v]> sm)
      | Raise ex => (Raise ex, sm)
      end
  end.

(** The file system [save] starts writing into. *)
Definition with_directory (w : World) (path : string) : gmap string node :=
  if bool_decide (is_Some (fs w !! resolve w path)) then fs w
  else <[resolve w path := Dir]> (fs w).

(** One file of [save]: what [open], the encoder and the write leave. *)
Definition save_step (w : World) (prefix : string) (e : entry)
  : outcome unit * World :=
  let key := prefix +:+ entry_file e in
  match fs w !! key with
  | Some Dir => (Raise IsADirectoryError, w)
  | _ =>
      if parent_is_dir (fs w) key then
        match entry_content (sys_modules w) e with
        | Return c => (Return tt, set_fs (<[key := File c]> (fs w)) w)
        | Raise ex => (Raise ex, set_fs (<[key := File Empty]> (fs w)) w)
        end
      else (Raise (no_parent (fs w) key), w)
  end.

(** One file of [load]: what is read, decoded and registered. *)
Definition load_step (w : World) (prefix : string) (e : entry)
  : outcome unit * World :=
  match read_entry (fs w) (globals w) prefix e with
  | Return v =>
      (Return tt, set_sys_modules (<[entry_module e := v]> (sys_modules w)) w)
  | Raise ex => (Raise ex, w)
  end.

(** Updating a map with the entries that have a value, in order. *)
Definition insert_all {A E} (key : E -> string) (val : E -> outcome A)
    (es : list E) (m : gmap string A) : gmap string A :=
  foldl (fun m e => match val e with
                    | Return v => <[key e := v]> m
                    | Raise _ => m
                    end) m es.

(** The file system once every entry is written. *)
Definition write_entries (sm : gmap string pyval) (prefix : string)
    (es : list entry) (f : gmap string node) : gmap string node :=
  insert_all (fun e => prefix +:+ entry_file e)
    (fun e => obind (entry_content sm e) (fun c => Return (File c))) es f.

(** [sys.modules] once every readable entry is registered. *)
Definition register_entries (f : gmap string node) (g : gmap string pyval)
    (prefix : string) (es : list entry) (sm : gmap string pyval)
  : gmap string pyval :=
  insert_all entry_module (read_entry f g prefix) es sm.

(** What [load] would get in [w] out of the file of an entry of the
    checkpoint at [path]: a value, or the error that makes the file missing
    or unreadable. *)
Definition read_from (w : World) (path : string) (e : entry) : outcome pyval :=
  read_entry (fs w) (globals w) (join_prefix (resolve w path)) e.

(** The keys of a JSON object are in order, at every depth. *)
Inductive json_sorted : json -> Prop :=
| sorted_null : json_sorted JNull
| sorted_bool b : json_sorted (JBool b)
| sorted_int z : json_sorted (JInt z)
| sorted_str s : json_sorted (JStr s)
| sorted_arr items : Forall json_sorted items -> json_sorted (JArr items)
| sorted_obj members :
    Sorted member_le members ->
    Forall (fun kv => json_sorted kv.2) members ->
    json_sorted (JObj members).

(** The session state [save] is given: both configuration mappings are
    registered and are dicts that [json] can encode, and each role has an
    entry that [pickle] can write. *)
Definition session_state (w : World) : Prop :=
  Forall (fun name => exists d doc,
            sys_modules w !! name = Some (VDict d) /\
            to_json true (VDict d) = Return doc)
    ["seisflows_parameters"; "seisflows_paths"] /\
  Forall (fun name => exists v p,
            sys_modules w !! role_key name = Some v /\
            dumps v = Return p) NAMES.

(** The target of [save]: [path] is a directory or does not exist yet, and
    none of the files to write is a directory. *)
Definition target_ready (w : World) (path : string) : Prop :=
  (fs w !! resolve w path = None \/ fs w !! resolve w path = Some Dir) /\
  Forall (fun e => fs w !! entry_key w path (entry_file e) <> Some Dir) expected.

(** The function a name resolves to through a resolution order: the entry
    of the first class whose [__dict__] has the name. *)
Definition first_definer (func_name : string) (cls c : pyclass)
    (attr : class_attr) : Prop :=
  exists pre post,
    mro cls = (pre ++ c :: post)%list /\
    Forall (fun k => cls_dict k !! func_name = None) pre /\
    cls_dict c !! func_name = Some attr.

(** Values that [pickle] writes and reads back as they are, with the names
    in [g]: no bound method among them, and classes and functions importable
    under their names. *)
Inductive picklable (g : gmap string pyval) : pyval -> Prop :=
| pk_none : picklable g VNone
| pk_bool b : picklable g (VBool b)
| pk_int z : picklable g (VInt z)
| pk_str s : picklable g (VStr s)
| pk_list l : Forall (picklable g) l -> picklable g (VList l)
| pk_dict d : Forall (fun kv => picklable g kv.2) d -> picklable g (VDict d)
| pk_class c : g !! cls_name c = Some (VClass c) -> picklable g (VClass c)
| pk_function f :
    g !! fn_name f = Some (VFunction f) -> picklable g (VFunction f)
| pk_instance c d :
    g !! cls_name c = Some (VClass c) ->
    Forall (fun kv => picklable g kv.2) d ->
    picklable g (VInstance c d).

(** A value that holds a bound method, at any depth. *)
Inductive holds_method : pyval -> Prop :=
| hm_here f self : holds_method (VMethod f self)
| hm_list l x : x ∈ l -> holds_method x -> holds_method (VList l)
| hm_dict d kv : kv ∈ d -> holds_method kv.2 -> holds_method (VDict d)
| hm_instance c d kv :
    kv ∈ d -> holds_method kv.2 -> holds_method (VInstance c d).

(** *** Sample sessions *)

Definition sample_globals : gmap string pyval :=
  <["Base" := VClass Base]> {["Inversion" := VClass Inversion]}.

(** A workflow that keeps one of its own methods as a callback:
    [self.callback = self.setup]. *)
Definition a_workflow : pyval :=
  VInstance Inversion
    [("iteration", VInt 3); ("callback", VMethod base_setup an_inversion)].

Definition session_with (workflow : pyval) : World :=
  mkWorld
    (<["seisflows_parameters" := VDict [("SOLVER", VStr "specfem2d"); ("NTASK", VInt 4)]]>
     (<["seisflows_paths" := VDict [("OUTPUT", VStr "/out")]]>
     (<["seisflows_system" := VInstance Base []]>
     (<["seisflows_preprocess" := VNone]>
     (<["seisflows_solver" := VInstance Base [("taskid", VInt 0)]]>
     (<["seisflows_postprocess" := VNone]>
     (<["seisflows_optimize" := VNone]>
     (<["seisflows_workflow" := workflow]> ∅))))))))
    {["/home" := Dir]} ["home"] [] sample_globals.

(** A session whose workflow holds plain data only, and one whose workflow
    keeps a bound method. *)
Definition sample_session : World := session_with an_inversion.
Definition callback_session : World := session_with a_workflow.

(** A process with nothing registered and, on disk, a checkpoint whose
    workflow file is missing. *)
Definition torn_checkpoint : World :=
  mkWorld ∅
    (<["/ckpt" := Dir]>
     (<["/ckpt/seisflows_parameters.json" :=
          File (JsonText 4 (JObj [("SOLVER", JStr "specfem2d")]))]>
     (<["/ckpt/seisflows_paths.json" := File (JsonText 4 (JObj []))]>
     (<["/ckpt/seisflows_system.p" := File (PickleData PNone)]>
     (<["/ckpt/seisflows_preprocess.p" := File (PickleData PNone)]>
     (<["/ckpt/seisflows_solver.p" := File (PickleData PNone)]>
     (<["/ckpt/seisflows_postprocess.p" := File (PickleData PNone)]>
     (<["/ckpt/seisflows_optimize.p" := File (PickleData PNone)]> ∅))))))))
    ["home"] [] ∅.

(** *** More sample objects *)

(** A process whose parameters name the optimizer. *)
Definition configured_world : World :=
  mkWorld {["seisflows_parameters" := VDict [("OPTIMIZE", VStr "LBFGS")]]}
    ∅ [] [] ∅.

(** A package in which every module is found and none can be imported (an
    external dependency is missing). *)
Definition broken_package : Package :=
  mkPackage (fun text _ _ _ => text) (fun _ => true)
    (fun _ => raise ImportError) (fun _ => "No module named 'pyatoa'")
    (fun _ => EmptyString).

(** A class that keeps a constant under the name of a method of its
    bases. *)
Definition Tuned : pyclass :=
  PyClass "Tuned" {["main" := AData 0]} [Inversion; Base].

(** Values that [json] writes and reads back as they are: scalars and
    lists of them, at any depth. *)
Inductive json_plain : pyval -> Prop :=
| plain_none : json_plain VNone
| plain_bool b : json_plain (VBool b)
| plain_int z : json_plain (VInt z)
| plain_str s : json_plain (VStr s)
| plain_list l : Forall json_plain l -> json_plain (VList l).

(** The message [custom_import] prints when the module is not part of the
    package. *)
Definition not_found_message (pkg : Package) (name module : string) : string :=
  msg_cli pkg
    ("The following module was not found within the package: " +:+
     "seisflows." +:+ name +:+ "." +:+ module)
    [] (Some "custom import error") (Some "=").

(** The message [custom_import] prints when the import raises. *)
Definition import_failed_message (pkg : Package) (name module : string)
    (e : exn) : string :=
  msg_cli pkg
    ("Module could not be imported " +:+ full_dotted_name name module)
    [str_exn pkg e] (Some "custom import error") (Some "=").

(** ** [config_logger] *)

(** The part of [logging] that [config_logger] drives: a logger with its
    level and its list of handlers, handlers with their formatter. *)
Module Logging.

(** [logging.Formatter(fmt, datefmt=datefmt)] *)
Record Formatter := mkFormatter { fmt : string; datefmt : string }.

(** Where a handler writes: the stream of a [StreamHandler], or the file
    (name and mode) of a [FileHandler]. *)
Inductive target :=
| ToStream (stream : string)
| ToFile (filename filemode : string).

Record Handler := mkHandler {
  h_target : target;
  h_formatter : option Formatter;
}.

(** A logger: its level, its own handlers, and whether a logger above it,
    reached by propagation, has handlers. *)
Record Logger := mkLogger {
  level : Z;
  handlers : list Handler;
  ancestors_have_handlers : bool;
}.

#[global] Instance Formatter_eq_dec : EqDecision Formatter.
Proof. solve_decision. Defined.
#[global] Instance target_eq_dec : EqDecision target.
Proof. solve_decision. Defined.
#[global] Instance Handler_eq_dec : EqDecision Handler.
Proof. solve_decision. Defined.

(** What a call of [config_logger] raises: [ValueError] from [setLevel], or
    what opening the log file raised. *)
Inductive error :=
| ValueError
| OpenError (e : exn).

(** [logging._nameToLevel] *)
Definition name_to_level (name : string) : option Z :=
  if String.eqb name "CRITICAL" then Some 50
  else if String.eqb name "FATAL" then Some 50
  else if String.eqb name "ERROR" then Some 40
  else if String.eqb name "WARN" then Some 30
  else if String.eqb name "WARNING" then Some 30
  else if String.eqb name "INFO" then Some 20
  else if String.eqb name "DEBUG" then Some 10
  else if String.eqb name "NOTSET" then Some 0
  else None.

(** [logger.hasHandlers()] *)
Definition hasHandlers (logger : Logger) : bool :=
  match handlers logger with
  | [] => ancestors_have_handlers logger
  | _ :: _ => true
  end.

(** [l.remove(x)]: the first item equal to [x] goes. *)
Fixpoint list_remove (x : Handler) (l : list Handler) : list Handler :=
  match l with
  | [] => []
  | y :: rest => if decide (y = x) then rest else y :: list_remove x rest
  end.

(** [logger.removeHandler(hdlr)] *)
Definition removeHandler (hdlr : Handler) (logger : Logger) : Logger :=
  if bool_decide (hdlr ∈ handlers logger)
  then mkLogger (level logger) (list_remove hdlr (handlers logger))
         (ancestors_have_handlers logger)
  else logger.

(** [logger.addHandler(hdlr)], for a handler that has just been made and
    so is not yet among the handlers. *)
Definition addHandler (hdlr : Handler) (logger : Logger) : Logger :=
  mkLogger (level logger) (handlers logger ++ [hdlr])
    (ancestors_have_handlers logger).

(** [logger.setLevel(level)] for a level given by name. *)
Definition setLevel (name : string) (logger : Logger) : option Logger :=
  match name_to_level name with
  | Some n =>
      Some (mkLogger n (handlers logger) (ancestors_have_handlers logger))
  | None => None
  end.

(** [handler.setFormatter(formatter)] *)
Definition setFormatter (formatter : Formatter) (h : Handler) : Handler :=
  mkHandler (h_target h) (Some formatter).

(** [logging.StreamHandler(stream)] *)
Definition StreamHandler (stream : string) : Handler :=
  mkHandler (ToStream stream) None.

End Logging.

Section ConfigLogger.

Import Logging.

(** [logging.FileHandler(filename, filemode)] opens the file at once; what
    that does to the file system, and whether it raises, is left open. *)
Variable open_log : string -> string -> M unit.

Definition FileHandler (filename filemode : string) : M Handler :=
  open_log filename filemode ;;;
  ret (mkHandler (ToFile filename filemode) None).

(** The loop [while logger.hasHandlers() and logger.handlers:
    logger.removeHandler(logger.handlers[0])], run for at most [fuel]
    rounds. *)
Fixpoint remove_handlers (fuel : nat) (logger : Logger) : Logger :=
  match fuel with
  | O => logger
  | S fuel =>
      if hasHandlers logger && negb (bool_decide (handlers logger = [])) then
        match handlers logger with
        | first :: _ => remove_handlers fuel (removeHandler first logger)
        | [] => logger
        end
      else logger
  end.

(** The statement of the log line, with and without the level and the
    name of the caller. *)
Definition verbose_format : string :=
  "%(asctime)s | %(levelname)-5s | %(name)s.%(funcName)s()" +:+
  String (ascii_of_nat 10) "> %(message)s".

Definition plain_format : string := "%(asctime)s | %(message)s".

(** The formatter [config_logger] sets on its handlers. *)
Definition log_formatter (verbose : bool) : Formatter :=
  mkFormatter (if verbose then verbose_format else plain_format)
    "%Y-%m-%d %H:%M:%S".

(** [config_logger(level, filename, filemode, verbose)] on the package
    logger: the outcome, the logger and the process afterwards. One round
    of the loop removes one handler, so as many rounds as there are
    handlers end it. *)
Definition config_logger (level : string) (filename : option string)
    (filemode : string) (verbose : bool) (logger : Logger) (w : World)
  : option error * Logger * World :=
  (* Make sure that we don't already have handlers described *)
  let logger := remove_handlers (length (handlers logger)) logger in
  (* Two levels of verbosity on log level *)
  let fmt_str := if verbose then verbose_format else plain_format in
  match setLevel level logger with
  | None => (Some ValueError, logger, w)
  | Some logger =>
      let formatter := mkFormatter fmt_str "%Y-%m-%d %H:%M:%S" in
      (* Stream handler to print log statements to stdout *)
      let st_handler := setFormatter formatter (StreamHandler "sys.stdout") in
      let logger := addHandler st_handler logger in
      (* File handler to print log statements to text file `filename` *)
      match filename with
      | None => (None, logger, w)
      | Some filename =>
          match FileHandler filename filemode w with
          | (Return file_handler, w') =>
              let file_handler := setFormatter formatter file_handler in
              (None, addHandler file_handler logger, w')
          | (Raise e, w') => (Some (OpenError e), logger, w')
          end
      end
  end.

End ConfigLogger.

(** ** [seisflows/plugins/solver_io/fortran_binary.py] *)

Module FortranBinary.

(** A binary file as [numpy] reads it: a sequence of 4-byte items in
    native byte order and, when the size is no multiple of four, the bytes
    left over. An item is kept as the signed 32-bit integer its four bytes
    spell, which is what [dtype='int32'] reads; a [float32] value is
    identified with its four bytes, so that arrays of [float32] are lists
    of items (turning other numbers into [float32] is not modelled). *)
Record file := mkFile { items : list Z; trailing : list Z }.

Inductive bnode :=
| BDir
| BFile (f : file).

(** The disk: nodes by absolute path, and the working directory. *)
Record Disk := mkDisk { nodes : gmap string bnode; dcwd : list string }.

Inductive error :=
| OSError (e : exn)          (* raised by [getsize], [open] or [copyfile] *)
| IndexError
| SameFileError.

Inductive result (A : Type) :=
| Ok (a : A)
| Err (e : error).
Arguments Ok {A} a.
Arguments Err {A} e.

(** The absolute path a file name denotes. *)
Definition locate (d : Disk) (p : string) : string :=
  resolve (mkWorld ∅ ∅ (dcwd d) [] ∅) p.

(** Which paths are directories and which are files. *)
Definition skeleton (d : Disk) : gmap string node :=
  (fun n => match n with BDir => Dir | BFile _ => File Empty end) <$> nodes d.

(** [os.path.getsize] *)
Definition getsize (f : file) : Z :=
  (4 * Z.of_nat (length (items f)) + Z.of_nat (length (trailing f)))%Z.

(** The value an [int32] holds for a Python [int]. *)
Definition int32 (z : Z) : Z := ((z + 2 ^ 31) mod 2 ^ 32 - 2 ^ 31)%Z.

(** [open(filename, 'wb')]: the key of the file that is created or
    truncated. *)
Definition open_wb (filename : string) (d : Disk) : result string :=
  let key := locate d filename in
  match nodes d !! key with
  | Some BDir => Err (OSError IsADirectoryError)
  | _ =>
      if parent_is_dir (skeleton d) key then Ok key
      else Err (OSError (no_parent (skeleton d) key))
  end.

(** [f"{iproc:06d}"]: the decimal digits, filled with zeros after the sign
    up to six characters. *)
Definition decimal (z : Z) : string :=
  DecimalString.NilZero.string_of_uint (N.to_uint (Z.to_N z)).

Definition zfill (width : nat) (s : string) : string :=
  PyStr.concat (replicate (width - String.length s) "0") +:+ s.

Definition format_06d (z : Z) : string :=
  if (z <? 0)%Z then "-" +:+ zfill 5 (decimal (- z)%Z) else zfill 6 (decimal z).

(** ["proc{iproc:06d}_{key}.bin"] as an f-string *)
Definition slice_name (iproc : Z) (key : string) : string :=
  "proc" +:+ format_06d iproc +:+ "_" +:+ key +:+ ".bin".

Definition _read (filename : string) (d : Disk) : result (list Z) :=
  match nodes d !! locate d filename with
  | None => Err (OSError FileNotFoundError)        (* getsize(filename) *)
  | Some BDir => Err (OSError IsADirectoryError)   (* open(filename, 'rb') *)
  | Some (BFile f) =>
      let nbytes := getsize f in
      (* read size of record *)
      match take 1 (items f) with
      | [] => Err IndexError                       (* [0] of an empty array *)
      | n :: _ =>
          if (n =? nbytes - 8)%Z then
            let data := drop 1 (items f) in        (* file.seek(4) *)
            Ok (take (length data - 1) data)       (* data[:-1] *)
          else
            Ok (items f)                           (* file.seek(0) *)
      end
  end.

(** [_write(v, filename)] for an array [v] of [float32]. The record length
    is an [int32]: a length that does not fit wraps around here, as in
    older versions of NumPy (newer ones raise [OverflowError]); what is
    proved below is for lengths that fit. *)
Definition _write (v : list Z) (filename : string) (d : Disk)
  : result unit * Disk :=
  let n := int32 (4 * Z.of_nat (length v))%Z in
  match open_wb filename d with
  | Err e => (Err e, d)
  | Ok key =>
      (Ok tt,
       mkDisk (<[key := BFile (mkFile ([n] ++ v ++ [n]) [])]> (nodes d))
         (dcwd d))
  end.

(** [read_slice(path, parameters, iproc)], where [parameters] is the list
    that [iterable(parameters)] yields. *)
Fixpoint read_slice (path : string) (parameters : list string) (iproc : Z)
    (d : Disk) : result (list (list Z)) :=
  match parameters with
  | [] => Ok []
  | key :: rest =>
      let filename := path +:+ "/" +:+ slice_name iproc key in
      match _read filename d with
      | Err e => Err e
      | Ok val =>
          match read_slice path rest iproc d with
          | Err e => Err e
          | Ok vals => Ok (val :: vals)
          end
      end
  end.

(** [write_slice(data, path, parameters, iproc)]. The file name is a plain
    string literal in the source, not an f-string: the braces stay. *)
Fixpoint write_slice (data : list Z) (path : string)
    (parameters : list string) (iproc : Z) (d : Disk) : result unit * Disk :=
  match parameters with
  | [] => (Ok tt, d)
  | key :: rest =>
      let filename := "{path}/proc{iproc:06d}_{key}.bin" in
      match _write data filename d with
      | (Err e, d') => (Err e, d')
      | (Ok _, d') => write_slice data path rest iproc d'
      end
  end.

(** [shutil.copyfile(src, dst)] *)
Definition copyfile (src dst : string) (d : Disk) : result unit * Disk :=
  let ksrc := locate d src in
  if bool_decide (ksrc = locate d dst) && bool_decide (is_Some (nodes d !! ksrc))
  then (Err SameFileError, d)
  else
    match nodes d !! ksrc with
    | None => (Err (OSError FileNotFoundError), d)
    | Some BDir => (Err (OSError IsADirectoryError), d)
    | Some (BFile f) =>
        match open_wb dst d with
        | Err e => (Err e, d)
        | Ok key => (Ok tt, mkDisk (<[key := BFile f]> (nodes d)) (dcwd d))
        end
    end.

Definition copy_slice (src dst : string) (iproc : Z) (parameter : string)
    (d : Disk) : result unit * Disk :=
  let filename := slice_name iproc parameter in
  copyfile (os_path_join src filename) (os_path_join dst filename) d.

(** An unformatted Fortran record, as SPECFEM writes a model slice: the
    values between two markers that hold their length in bytes. *)
Definition fortran_record (v : list Z) : file :=
  mkFile ([int32 (4 * Z.of_nat (length v))%Z] ++ v ++
          [int32 (4 * Z.of_nat (length v))%Z]) [].

(** The one name under which [write_slice] writes. *)
Definition literal_name : string := "{path}/proc{iproc:06d}_{key}.bin".

(** A disk with one slice of two values between its record markers. *)
Definition sample_disk : Disk :=
  mkDisk
    (<["/a" := BDir]> (<["/b" := BDir]>
       {["/a/proc000001_vs.bin" := BFile (mkFile [8; 5; 6; 8]%Z [])]}))
    [].

End FortranBinary.

(** ** [seisflows/workflow/noise_inversion.py] *)

Module NoiseInversion.

(** What the workflow reads of itself: the two attributes it sets in
    [__init__], and those it inherits and checks. *)
Record Workflow := mkWorkflow {
  kernels : string;                 (* self.kernels *)
  _force : option string;           (* self._force *)
  preprocess_class : string;        (* self.preprocess.__class__.__name__ *)
  data_case : string;               (* self.data_case *)
  solver_cwd : string;              (* self.solver.cwd *)
  source_name : string;             (* self.solver.source_name *)
  path_data : string;               (* self.path.data *)
}.

(** The methods that make up a task list. *)
Inductive task :=
| generate_zz_kernels
| generate_tt_rr_kernels
| postprocess_event_kernels
| evaluate_gradient_from_kernels
| initialize_line_search
| perform_line_search
| finalize_iteration.

Inductive error :=
| AssertionError
| KeyError
| Inherited (e : exn).              (* raised by what the method calls *)

(** [__init__] with its argument [kernels], on the object that the
    [__init__] of the parent class has set up. *)
Definition __init__ (self : Workflow) (kernels : string) : Workflow :=
  mkWorkflow (PyStr.upper kernels) None (preprocess_class self) (data_case self)
    (solver_cwd self) (source_name self) (path_data self).

Definition acceptable_kernels : list string := ["ZZ"; "TT"; "RR"].

(** [s.split(",")] *)
Definition split_commas (s : string) : list string :=
  PyStr.split_on (fun c => Ascii.eqb c ",") s.

(** [set(l).issubset(s)] *)
Definition issubset (l s : list string) : bool :=
  forallb (fun x => bool_decide (x ∈ s)) l.

(** [check(self)], given what [super().check()] does. *)
Definition check (super_check : option exn) (self : Workflow) : option error :=
  match super_check with
  | Some e => Some (Inherited e)
  | None =>
      if negb (String.eqb (preprocess_class self) "Noise") then
        Some AssertionError
      else if negb (issubset (split_commas (kernels self)) acceptable_kernels)
      then Some AssertionError
      else if negb (String.eqb (data_case self) "data") then
        Some AssertionError
      else None
  end.

(** Standard inversion tasks *)
Definition standard_tasks : list task :=
  [postprocess_event_kernels; evaluate_gradient_from_kernels;
   initialize_line_search; perform_line_search; finalize_iteration].

(** The property [task_list] *)
Definition task_list (self : Workflow) : list task :=
  let task_list : list task := [] in
  (* Determine which kernels we will generate during the workflow *)
  let task_list :=
    if PyStr.contains "ZZ" (kernels self)
    then (task_list ++ [generate_zz_kernels])%list else task_list in
  (* These components can be run together because they use the same sims *)
  let task_list :=
    if PyStr.contains "TT" (kernels self) || PyStr.contains "RR" (kernels self)
    then (task_list ++ [generate_tt_rr_kernels])%list else task_list in
  (task_list ++ standard_tasks)%list.

(** What [prepare_data_for_solver] asks of the rest of the package, in
    the order it asks. *)
Inductive call :=
| unix_rm_glob (pattern : string)              (* unix.rm(glob(pattern)) *)
| super_prepare_data_for_solver (_src : string).

Section Collaborators.

(** What the two calls do: return, or raise. *)
Variable rm_glob : string -> option exn.
Variable super_prepare : string -> option exn.

(** [prepare_data_for_solver(self)]: the calls made and how it ends. *)
Definition prepare_data_for_solver (self : Workflow)
  : list call * option error :=
  (* Define where the obs data is stored so we can do some manipulations *)
  let dst :=
    os_path_join (os_path_join (os_path_join (solver_cwd self) "traces") "obs")
      EmptyString in
  (* Remove any existing data that might have been placed here previously *)
  let pattern := os_path_join dst "*" in
  match rm_glob pattern with
  | Some e => ([unix_rm_glob pattern], Some (Inherited e))
  | None =>
      let wc := EmptyString in              (* wildcard to search for data *)
      let wc := if PyStr.contains "RR" (kernels self) then wc +:+ "R" else wc in
      let wc := wc +:+ "T" in               (* [if "TT":] always holds *)
      (* Generating a wildcard string that will be used to copy in data *)
      let both := "[" +:+ wc +:+ "][" +:+ wc +:+ "]" in
      let dir_ :=
        match _force self with
        | Some force =>
            if String.eqb force "Z" then Some "ZZ"
            else if String.eqb force "N" then Some both
            else if String.eqb force "E" then Some both
            else None
        | None => None
        end in
      match dir_ with
      | None => ([unix_rm_glob pattern], Some KeyError)
      | Some dir_ =>
          let src :=
            os_path_join
              (os_path_join (os_path_join (path_data self) (source_name self))
                 dir_) "*" in
          (* Use Forward workflow machinery to copy in data *)
          ([unix_rm_glob pattern; super_prepare_data_for_solver src],
           match super_prepare src with
           | Some e => Some (Inherited e)
           | None => None
           end)
      end
  end.

End Collaborators.

(** The pattern of the observed data that is removed first. *)
Definition obs_pattern (self : Workflow) : string :=
  os_path_join
    (os_path_join (os_path_join (os_path_join (solver_cwd self) "traces") "obs")
       EmptyString) "*".

(** The pattern of the data to copy in for a horizontal force, with the
    directories it admits. *)
Definition horizontal_data_pattern (self : Workflow) : string :=
  os_path_join
    (os_path_join (os_path_join (path_data self) (source_name self))
       (if bool_decide ("RR" ∈ split_commas (kernels self))
        then "[RT][RT]" else "[T][T]")) "*".

End NoiseInversion.

(** * Properties *)

Example title_specfem : PyStr.title "specfem3d_globe" = "Specfem3D_Globe".
Proof. reflexivity. Qed.

Example isupper_lbfgs : PyStr.isupper "LBFGS" = true.
Proof. reflexivity. Qed.

Example camelcase_specfem :
  camelcase_classname "specfem3d_globe" = "Specfem3DGlobe".
Proof. reflexivity. Qed.

Example camelcase_lbfgs : camelcase_classname "LBFGS" = "LBFGS".
Proof. reflexivity. Qed.

(** ** Name translation *)

Section NameTranslation.

Import PyStr.

Lemma lower_char_facts c :
  is_lower c = true ->
  is_upper c = false /\ is_cased c = true /\ to_lower c = c /\
  Ascii.eqb c "_" = false /\ Ascii.eqb (to_upper c) "_" = false.
Proof.
  destruct c as [[] [] [] [] [] [] [] []]; vm_compute; intros H;
    first [discriminate H | repeat split; reflexivity].
Qed.

Lemma underscore_uncased c : Ascii.eqb c "_" = true -> is_cased c = false.
Proof. intros ->%Ascii.eqb_eq. reflexivity. Qed.

Lemma split_on_nonempty is_sep s : split_on is_sep s <> [].
Proof.
  destruct s as [|c s]; simpl; [discriminate|].
  destruct (is_sep c); [discriminate|].
  destruct (split_on is_sep s); discriminate.
Qed.

Lemma upper_id s : existsb_char is_lower s = false -> upper s = s.
Proof.
  induction s as [|c s IH]; simpl; [reflexivity|].
  intros [Hc Hs]%orb_false_iff. unfold to_upper. rewrite Hc, IH; auto.
Qed.

Lemma snake_not_isupper s :
  delimited_lowercase is_underscore s = true -> isupper s = false.
Proof.
  unfold isupper, delimited_lowercase. intros H.
  destruct (existsb_char is_lower s) eqn:Hl; [reflexivity|]. simpl.
  induction s as [|c s IH]; simpl in *; [reflexivity|].
  apply andb_true_iff in H as [Hc Hs].
  apply orb_false_iff in Hl as [Hlc Hls].
  rewrite Hlc in Hc. simpl in Hc.
  rewrite (underscore_uncased c Hc). simpl. auto.
Qed.

Lemma title_snake s :
  delimited_lowercase is_underscore s = true ->
  replace "_" EmptyString (title_from false s) = capitalized_words is_underscore s /\
  replace "_" EmptyString (title_from true s) =
    match split_on is_underscore s with
    | w :: ws => lower w +:+ concat (map capitalize ws)
    | [] => EmptyString
    end.
Proof.
  unfold delimited_lowercase, capitalized_words.
  induction s as [|c s IH]; simpl; [split; reflexivity|].
  intros [Hc Hs]%andb_true_iff. destruct (IH Hs) as [IHf IHt]. clear IH.
  destruct (is_lower c) eqn:Hl.
  - destruct (lower_char_facts c Hl) as (Hu & Hcased & Hlow & He1 & He2).
    rewrite Hcased. change (is_underscore c) with (Ascii.eqb c "_"). rewrite He1.
    pose proof (split_on_nonempty is_underscore s) as Hne.
    destruct (split_on is_underscore s) as [|w ws]; [done|].
    simpl. rewrite ?Hlow, ?He2, ?He1, ?IHt. split; reflexivity.
  - simpl in Hc. rewrite (underscore_uncased c Hc).
    change (is_underscore c) with (Ascii.eqb c "_") in *. rewrite Hc. simpl.
    rewrite Hc. simpl.
    rewrite IHf. split; reflexivity.
Qed.

Lemma camelcase_snake s :
  delimited_lowercase is_underscore s = true ->
  camelcase_classname s = capitalized_words is_underscore s.
Proof.
  intros H. unfold camelcase_classname. rewrite (snake_not_isupper s H).
  apply (title_snake s H).
Qed.

Lemma camelcase_upper s : isupper s = true -> camelcase_classname s = s.
Proof.
  intros H. unfold camelcase_classname. rewrite H.
  apply upper_id. unfold isupper in H.
  apply andb_true_iff in H as [H _]. by apply negb_true_iff in H.
Qed.

End NameTranslation.

(** ** The serialization adapter *)

Lemma mro_loop_found func_name pre c post cls func :
  Forall (fun k => cls_dict k !! func_name = None) pre ->
  cls_dict c !! func_name = Some func ->
  mro_loop func_name (pre ++ c :: post)%list cls = (c, Some func).
Proof.
  intros Hpre Hc. revert cls.
  induction Hpre as [|k pre Hk _ IH]; intros cls; simpl.
  - by rewrite Hc.
  - rewrite Hk. apply IH.
Qed.

Lemma mro_loop_missing func_name classes cls :
  Forall (fun k => cls_dict k !! func_name = None) classes ->
  (mro_loop func_name classes cls).2 = None.
Proof.
  intros H. revert cls.
  induction H as [|k l Hk _ IH]; intros cls; simpl; [done|].
  rewrite Hk. apply IH.
Qed.

Lemma unpickle_method_missing func_name obj cls :
  Forall (fun k => cls_dict k !! func_name = None) (mro cls) ->
  _unpickle_method func_name obj cls = Raise UnboundLocalError.
Proof.
  intros H. unfold _unpickle_method.
  pose proof (mro_loop_missing func_name (mro cls) cls H) as Hm.
  destruct (mro_loop func_name (mro cls) cls) as [c o]. simpl in Hm.
  by rewrite Hm.
Qed.

Lemma unpickle_method_found func_name obj cls c func :
  first_definer func_name cls c (AFunction func) ->
  obj <> VNone ->
  _unpickle_method func_name obj cls = Return (VMethod func obj).
Proof.
  intros (pre & post & Hmro & Hpre & Hc) Hobj.
  unfold _unpickle_method. rewrite Hmro.
  rewrite (mro_loop_found _ pre c post cls (AFunction func) Hpre Hc).
  simpl. by destruct obj.
Qed.

(** X14. What [_unpickle_method] does with an encoded bound method: it looks
    the name up in the [__dict__] of each class of the owning class's
    resolution order, takes the function of the first class that has the
    name and binds it to the object it is given; calling the result runs
    that function on that object. *)
Lemma unpickle_method_rebinds
    (func_name : string) (obj : pyval) (cls c : pyclass) (func : pyfunc) :
  first_definer func_name cls c (AFunction func) ->
  obj <> VNone ->
  _unpickle_method func_name obj cls = Return (VMethod func obj) /\
  forall code args,
    obind (_unpickle_method func_name obj cls) (fun m => call code m args)
    = code (fn_code func) obj args.
Proof.
  intros Hdef Hobj.
  rewrite (unpickle_method_found func_name obj cls c func Hdef Hobj).
  split; [reflexivity|]. intros code args. reflexivity.
Qed.

(** C3. [_pickle_method] does not encode a bound method: a bound method
    has no attribute [im_func], so reading it raises [AttributeError], for
    every function and every object the function is bound to. *)
Theorem pickle_method_raises (f : pyfunc) (self : pyval) :
  _pickle_method (VMethod f self) = Raise AttributeError /\
  dumps (VMethod f self) = Raise AttributeError.
Proof. split; reflexivity. Qed.

(** C4. When no class of the owning class's resolution order has the
    function name in its [__dict__], [_unpickle_method] raises (the local
    [func] was never assigned) and returns no callable. *)
Theorem unpickle_method_unresolved
    (func_name : string) (obj : pyval) (cls : pyclass) :
  Forall (fun k => cls_dict k !! func_name = None) (mro cls) ->
  _unpickle_method func_name obj cls = Raise UnboundLocalError /\
  forall v, _unpickle_method func_name obj cls <> Return v.
Proof.
  intros H.
  assert (Hr : _unpickle_method func_name obj cls = Raise UnboundLocalError)
    by (by apply unpickle_method_missing).
  split; [exact Hr|]. intros v. rewrite Hr. discriminate.
Qed.

Lemma unpickle_method_unresolved_witness :
  Forall (fun k => cls_dict k !! "wrapper" = None) (mro Inversion) /\
  _unpickle_method "wrapper" an_inversion Inversion = Raise UnboundLocalError.
Proof.
  assert (H : Forall (fun k => cls_dict k !! "wrapper" = None) (mro Inversion))
    by (repeat constructor).
  split; [exact H|].
  exact (proj1 (unpickle_method_unresolved "wrapper" an_inversion Inversion H)).
Defined.

(** ** Component resolution *)

Lemma in_NAMES name :
  name ∈ NAMES -> bool_decide (name ∈ NAMES) = true.
Proof. intros H. by apply bool_decide_eq_true. Qed.

(** C5. For a valid role and no module name given, [custom_import] returns
    [Null] when the registered parameters have no entry for the role or have
    the entry set to [None]; nothing is printed and nothing exits. *)
Theorem custom_import_unconfigured
    (pkg : Package) (name : string) (classname : option string) (w : World)
    (d : list (string * pyval)) :
  name ∈ NAMES ->
  sys_modules w !! "seisflows_parameters" = Some (VDict d) ->
  assoc (PyStr.upper name) d = None \/ assoc (PyStr.upper name) d = Some VNone ->
  custom_import pkg (Some name) None classname w = (Return Null, w).
Proof.
  intros Hname Hpar Hkey.
  unfold custom_import. rewrite (in_NAMES name Hname). simpl.
  unfold bind, try_, sys_modules_getitem, lift. rewrite Hpar. simpl.
  destruct Hkey as [-> | ->]; reflexivity.
Qed.

Lemma custom_import_unconfigured_witness :
  custom_import bare_package (Some "solver") None None unconfigured_world
    = (Return Null, unconfigured_world) /\
  custom_import bare_package (Some "optimize") None None unconfigured_world
    = (Return Null, unconfigured_world).
Proof.
  split.
  - apply (custom_import_unconfigured bare_package "solver" None
             unconfigured_world [("SOLVER", VNone)]).
    + apply (bool_decide_unpack _). vm_compute. exact I.
    + reflexivity.
    + right. reflexivity.
  - apply (custom_import_unconfigured bare_package "optimize" None
             unconfigured_world [("SOLVER", VNone)]).
    + apply (bool_decide_unpack _). vm_compute. exact I.
    + reflexivity.
    + left. reflexivity.
Defined.

(** X24. Before any parameters are registered, looking up
    [sys.modules["seisflows_parameters"]] itself raises the [KeyError] that
    the [except] clause catches: with the module omitted, [custom_import]
    returns [Null] for every role, prints nothing and changes nothing. *)
Lemma custom_import_no_parameters
    (pkg : Package) (name : string) (classname : option string) (w : World) :
  name ∈ NAMES ->
  sys_modules w !! "seisflows_parameters" = None ->
  custom_import pkg (Some name) None classname w = (Return Null, w).
Proof.
  intros Hname Hpar.
  unfold custom_import. rewrite (in_NAMES name Hname). simpl.
  unfold bind, try_, sys_modules_getitem. by rewrite Hpar.
Qed.

(** C7. With the role omitted, or with a role that is not one of [NAMES],
    [custom_import] prints its message and exits with status -1: it returns
    nothing, and neither [sys.modules] nor the file system changes. *)
Theorem custom_import_invalid_role
    (pkg : Package) (name module classname : option string) (w : World) :
  (forall n, name = Some n -> n ∉ NAMES) ->
  (exists w',
     custom_import pkg name module classname w = (Raise (SystemExit (-1)), w') /\
     sys_modules w' = sys_modules w /\ fs w' = fs w) /\
  forall v w', custom_import pkg name module classname w <> (Return v, w').
Proof.
  intros Hname.
  assert (H : exists w',
     custom_import pkg name module classname w = (Raise (SystemExit (-1)), w') /\
     sys_modules w' = sys_modules w /\ fs w' = fs w).
  { destruct name as [n|]; simpl.
    - rewrite bool_decide_eq_false_2 by (by apply Hname). simpl.
      unfold bind, print, sys_exit, raise. eauto.
    - unfold bind, print, sys_exit, raise. eauto. }
  split; [exact H|].
  destruct H as (w1 & -> & _). intros v w'. discriminate.
Qed.

Lemma custom_import_invalid_role_witness :
  (exists w',
     custom_import lbfgs_package (Some "optimise") (Some "LBFGS") None empty_world
       = (Raise (SystemExit (-1)), w') /\
     sys_modules w' = sys_modules empty_world /\ fs w' = fs empty_world) /\
  (exists w',
     custom_import lbfgs_package None (Some "LBFGS") None empty_world
       = (Raise (SystemExit (-1)), w') /\
     sys_modules w' = sys_modules empty_world /\ fs w' = fs empty_world).
Proof.
  split.
  - apply (custom_import_invalid_role lbfgs_package (Some "optimise")
             (Some "LBFGS") None empty_world).
    intros n [= <-]. apply (bool_decide_unpack _). vm_compute. exact I.
  - apply (custom_import_invalid_role lbfgs_package None (Some "LBFGS") None
             empty_world).
    intros n [=].
Defined.

(** How [custom_import] ends once the module name is known and the module
    exists and imports: it returns the attribute named by
    [class_identifier]. *)
Lemma custom_import_getattr
    (pkg : Package) (name module : string) (classname : option string)
    (w w' : World) (attrs : gmap string pyval) (cls : pyval) :
  name ∈ NAMES ->
  module_exists pkg (full_dotted_name name module) = true ->
  import_module pkg (full_dotted_name name module) w = (Return attrs, w') ->
  attrs !! class_identifier module classname = Some cls ->
  custom_import pkg (Some name) (Some module) classname w = (Return cls, w').
Proof.
  intros Hname Hex Himp Hattr.
  unfold custom_import. rewrite (in_NAMES name Hname).
  unfold full_dotted_name in *.
  destruct classname as [c|]; cbn -[PyStr.join] in *;
    unfold bind, try_, ret, lift; cbn -[PyStr.join];
    rewrite Hex; cbn -[PyStr.join]; rewrite Himp; cbn -[PyStr.join];
    by rewrite Hattr.
Qed.

(** C6 as stated fails on a hyphen: [title] capitalises the letter after
    the hyphen and [replace] removes underscores only, so the hyphen stays in
    the derived class name. *)
Lemma camelcase_hyphen_counterexample :
  delimited_lowercase is_hyphen_or_underscore "my-solver" = true /\
  camelcase_classname "my-solver" = "My-Solver" /\
  capitalized_words is_hyphen_or_underscore "my-solver" = "MySolver" /\
  camelcase_classname "my-solver"
    <> capitalized_words is_hyphen_or_underscore "my-solver".
Proof. repeat split; [reflexivity..|]. vm_compute. discriminate. Qed.

(** C6, amended. For a module name made of lowercase letters and
    underscores the derived class name is the concatenation of the
    capitalised underscore-delimited words; a module name for which
    [isupper] holds is its own class name; and [custom_import] fetches from
    the imported module the attribute named by [classname] when it is given
    and by the derived class name otherwise. *)
Theorem class_identifier_rule :
  (forall module,
     delimited_lowercase is_underscore module = true ->
     camelcase_classname module = capitalized_words is_underscore module) /\
  (forall module,
     PyStr.isupper module = true -> camelcase_classname module = module) /\
  (forall pkg name module classname w w' attrs cls,
     name ∈ NAMES ->
     module_exists pkg (full_dotted_name name module) = true ->
     import_module pkg (full_dotted_name name module) w = (Return attrs, w') ->
     attrs !! match classname with
              | Some c => c
              | None => camelcase_classname module
              end = Some cls ->
     custom_import pkg (Some name) (Some module) classname w = (Return cls, w')).
Proof.
  split; [exact camelcase_snake|]. split; [exact camelcase_upper|].
  intros pkg name module classname w w' attrs cls Hname Hex Himp Hattr.
  apply (custom_import_getattr pkg name module classname w w' attrs cls);
    assumption.
Qed.

Lemma class_identifier_rule_witness :
  camelcase_classname "noise_inversion" = "NoiseInversion" /\
  camelcase_classname "LBFGS" = "LBFGS" /\
  custom_import lbfgs_package (Some "optimize") (Some "LBFGS") None empty_world
    = (Return (VClass (PyClass "LBFGS" ∅ [])), empty_world) /\
  custom_import lbfgs_package (Some "optimize") (Some "LBFGS") (Some "LBFGS")
      empty_world
    = (Return (VClass (PyClass "LBFGS" ∅ [])), empty_world).
Proof.
  destruct class_identifier_rule as (Hsnake & Hupper & Hget).
  split; [exact (Hsnake "noise_inversion" eq_refl)|].
  split; [exact (Hupper "LBFGS" eq_refl)|].
  assert (Hn : "optimize" ∈ NAMES)
    by (apply (bool_decide_unpack _); vm_compute; exact I).
  split.
  - apply (Hget lbfgs_package "optimize" "LBFGS" None empty_world empty_world
             {["LBFGS" := VClass (PyClass "LBFGS" ∅ [])]});
      first [exact Hn | reflexivity].
  - apply (Hget lbfgs_package "optimize" "LBFGS" (Some "LBFGS") empty_world
             empty_world {["LBFGS" := VClass (PyClass "LBFGS" ∅ [])]});
      first [exact Hn | reflexivity].
Defined.

(** ** Flushing the session *)

Lemma set_sys_modules_id w : set_sys_modules (sys_modules w) w = w.
Proof. by destruct w. Qed.

Lemma flush_loop (l : list string) (w : World) :
  for_ l (fun name =>
    let mod_name := "seisflows_" +:+ name in
    let* present := sys_modules_contains mod_name in
    if present then sys_modules_delitem mod_name else ret tt) w
  = (Return tt,
     set_sys_modules
       (foldl (fun sm name => delete (role_key name) sm) (sys_modules w) l) w).
Proof.
  revert w. induction l as [|name l IH]; intros w.
  - simpl. unfold ret. by rewrite set_sys_modules_id.
  - cbn [for_ foldl]. unfold bind at 1. unfold bind at 1.
    unfold sys_modules_contains, sys_modules_delitem, role_key.
    destruct (sys_modules w !! ("seisflows_" +:+ name)) as [v|] eqn:Hl.
    + rewrite bool_decide_eq_true_2 by eauto. rewrite Hl. rewrite IH.
      reflexivity.
    + rewrite bool_decide_eq_false_2 by (intros [? [=]]).
      unfold ret. rewrite IH. by rewrite (delete_id _ _ Hl).
Qed.

Lemma flush_eq (w : World) :
  flush w = (Return tt, set_sys_modules (without_roles (sys_modules w)) w).
Proof. unfold flush, without_roles. apply flush_loop. Qed.

Lemma lookup_without (l : list string) (sm : gmap string pyval) (k : string) :
  foldl (fun sm name => delete (role_key name) sm) sm l !! k =
  if bool_decide (k ∈ map role_key l) then None else sm !! k.
Proof.
  revert sm. induction l as [|name l IH]; intros sm; simpl; [done|].
  rewrite IH. destruct (decide (k = role_key name)) as [->|Hne].
  - rewrite lookup_delete_eq.
    rewrite (bool_decide_eq_true_2 (role_key name ∈ role_key name :: _))
      by apply list_elem_of_here.
    by case_bool_decide.
  - rewrite lookup_delete_ne by done.
    rewrite (bool_decide_ext (k ∈ role_key name :: map role_key l)
               (k ∈ map role_key l)); [done|].
    rewrite elem_of_cons. intuition congruence.
Qed.

Lemma without_roles_lookup (sm : gmap string pyval) (k : string) :
  without_roles sm !! k =
  if bool_decide (k ∈ map role_key NAMES) then None else sm !! k.
Proof. apply lookup_without. Qed.

Lemma without_roles_idemp (sm : gmap string pyval) :
  without_roles (without_roles sm) = without_roles sm.
Proof.
  apply map_eq. intros k. rewrite !without_roles_lookup.
  by case_bool_decide.
Qed.

(** C9. [flush] always succeeds; afterwards [sys.modules] has no entry for
    any of the six roles, so that looking one up raises [KeyError], and the
    file system (with every checkpoint written before) is what it was. *)
Theorem flush_removes_roles (w : World) :
  exists w',
    flush w = (Return tt, w') /\
    Forall (fun name => sys_modules w' !! role_key name = None) NAMES /\
    Forall (fun name => sys_modules_getitem (role_key name) w'
                        = (Raise KeyError, w')) NAMES /\
    fs w' = fs w /\ cwd w' = cwd w.
Proof.
  exists (set_sys_modules (without_roles (sys_modules w)) w).
  split; [apply flush_eq|].
  assert (H : Forall (fun name =>
              sys_modules (set_sys_modules (without_roles (sys_modules w)) w)
                !! role_key name = None) NAMES).
  { apply Forall_forall. intros name Hname. simpl.
    rewrite without_roles_lookup.
    rewrite bool_decide_eq_true_2; [done|].
    by apply list_elem_of_fmap_2. }
  split; [exact H|]. split; [|done].
  eapply Forall_impl; [exact H|]. intros name Hn. simpl in *.
  unfold sys_modules_getitem. simpl. by rewrite Hn.
Qed.

(** C10. [flush] deletes the role entries only: every other entry of
    [sys.modules], the parameters and the paths among them, is left as it
    was. Flushing twice is flushing once, and flushing a process in which
    nothing was ever registered succeeds and changes nothing. *)
Theorem flush_keeps_configuration (w : World) :
  (flush w).1 = Return tt /\
  (forall k, k ∉ map role_key NAMES ->
     sys_modules (flush w).2 !! k = sys_modules w !! k) /\
  sys_modules (flush w).2 !! "seisflows_parameters"
    = sys_modules w !! "seisflows_parameters" /\
  sys_modules (flush w).2 !! "seisflows_paths"
    = sys_modules w !! "seisflows_paths" /\
  flush (flush w).2 = flush w /\
  flush empty_world = (Return tt, empty_world).
Proof.
  rewrite !flush_eq. simpl.
  assert (Hk : forall k, k ∉ map role_key NAMES ->
            without_roles (sys_modules w) !! k = sys_modules w !! k).
  { intros k Hk. rewrite without_roles_lookup.
    by rewrite bool_decide_eq_false_2. }
  split; [done|]. split; [exact Hk|].
  split; [apply Hk; apply (bool_decide_unpack _); vm_compute; exact I|].
  split; [apply Hk; apply (bool_decide_unpack _); vm_compute; exact I|].
  split; [|reflexivity].
  f_equal. unfold set_sys_modules. simpl. by rewrite without_roles_idemp.
Qed.

Lemma flush_keeps_configuration_witness :
  sys_modules (flush busy_world).2 !! "seisflows_parameters"
    = Some (VDict [("SOLVER", VStr "specfem2d")]) /\
  sys_modules (flush busy_world).2 !! "seisflows_workflow" = None.
Proof.
  split.
  - rewrite (proj1 (proj2 (flush_keeps_configuration busy_world))
               "seisflows_parameters").
    + reflexivity.
    + apply (bool_decide_unpack _). vm_compute. exact I.
  - vm_compute. reflexivity.
Defined.

(** ** Paths *)

Section Paths.

Implicit Types a b s n : string.

Lemma append_cons c a b : String c a +:+ b = String c (a +:+ b).
Proof. reflexivity. Qed.

Lemma append_nil_r s : s +:+ EmptyString = s.
Proof. induction s as [|c s IH]; [done|]. by rewrite append_cons, IH. Qed.

Lemma append_assoc a b s : (a +:+ b) +:+ s = a +:+ (b +:+ s).
Proof. induction a as [|c a IH]; [done|]. by rewrite !append_cons, IH. Qed.

Lemma append_length a b :
  String.length (a +:+ b) = (String.length a + String.length b)%nat.
Proof.
  induction a as [|c a IH]; [done|]. rewrite append_cons. simpl. by rewrite IH.
Qed.

Lemma append_nonempty_r a b : b <> EmptyString -> a +:+ b <> EmptyString.
Proof. destruct a; simpl; [done|discriminate]. Qed.

Lemma starts_with_slash_app a b :
  a <> EmptyString ->
  PyStr.starts_with_slash (a +:+ b) = PyStr.starts_with_slash a.
Proof. by destruct a. Qed.

Lemma ends_with_slash_cons c s :
  s <> EmptyString -> ends_with_slash (String c s) = ends_with_slash s.
Proof. by destruct s. Qed.

Lemma ends_with_slash_app a b :
  b <> EmptyString -> ends_with_slash (a +:+ b) = ends_with_slash b.
Proof.
  intros Hb. induction a as [|c a IH]; [done|].
  change (String c a +:+ b) with (String c (a +:+ b)).
  rewrite ends_with_slash_cons by by apply append_nonempty_r. exact IH.
Qed.

Lemma join_prefix_cases a :
  join_prefix a = a /\ (a = EmptyString \/ ends_with_slash a = true) \/
  join_prefix a = a +:+ "/" /\ a <> EmptyString /\ ends_with_slash a = false.
Proof.
  destruct a as [|c a]; [left; auto|].
  unfold join_prefix. destruct (ends_with_slash (String c a)); [left|right]; auto.
Qed.

Lemma join_prefix_ends a : a <> EmptyString -> ends_with_slash (join_prefix a) = true.
Proof.
  intros Ha. destruct (join_prefix_cases a) as [(-> & [?| ?]) | (-> & _ & _)];
    [done|done|].
  by rewrite ends_with_slash_app.
Qed.

Lemma join_prefix_nonempty a : a <> EmptyString -> join_prefix a <> EmptyString.
Proof. intros Ha H. apply join_prefix_ends in Ha. by rewrite H in Ha. Qed.

Lemma join_prefix_fixed a : ends_with_slash a = true -> join_prefix a = a.
Proof. intros H. destruct a; [done|]. unfold join_prefix. by rewrite H. Qed.

Lemma join_prefix_app a b : b <> EmptyString -> join_prefix (a +:+ b) = a +:+ join_prefix b.
Proof.
  intros Hb. pose proof (append_nonempty_r a b Hb) as Hab.
  unfold join_prefix. rewrite (ends_with_slash_app a b Hb).
  destruct (a +:+ b) eqn:E; [done|]. rewrite <- E.
  destruct b; [done|].
  destruct (ends_with_slash (String _ b)); [done|]. apply append_assoc.
Qed.

Lemma join_prefix_starts a :
  PyStr.starts_with_slash a = true ->
  PyStr.starts_with_slash (join_prefix a) = true.
Proof.
  intros H. destruct a as [|c a]; [done|].
  unfold join_prefix. by destruct (ends_with_slash (String c a)).
Qed.

Lemma os_path_join_relative a n :
  PyStr.starts_with_slash n = false -> os_path_join a n = join_prefix a +:+ n.
Proof. intros H. unfold os_path_join. by rewrite H. Qed.

Lemma getcwd_starts w : PyStr.starts_with_slash (getcwd w) = true.
Proof. reflexivity. Qed.

Lemma resolve_starts w s : PyStr.starts_with_slash (resolve w s) = true.
Proof.
  unfold resolve. destruct (PyStr.starts_with_slash s) eqn:E; [done|].
  rewrite os_path_join_relative by done.
  rewrite starts_with_slash_app; [apply join_prefix_starts, getcwd_starts|].
  by apply join_prefix_nonempty.
Qed.

Lemma resolve_nonempty w s : resolve w s <> EmptyString.
Proof. intros H. pose proof (resolve_starts w s) as E. by rewrite H in E. Qed.

Lemma resolve_absolute w s :
  PyStr.starts_with_slash s = true -> resolve w s = s.
Proof. intros H. unfold resolve. by rewrite H. Qed.

(** The file [save] opens under [path] ... *)
Lemma resolve_join_save w path n :
  PyStr.starts_with_slash n = false ->
  resolve w (os_path_join path n) = entry_key w path n.
Proof.
  intros Hn. unfold entry_key. rewrite os_path_join_relative by done.
  destruct path as [|c path].
  - assert (resolve w EmptyString = join_prefix (getcwd w)) as ->.
    { unfold resolve. change (PyStr.starts_with_slash EmptyString) with false.
      cbv iota. rewrite os_path_join_relative by done. apply append_nil_r. }
    rewrite (join_prefix_fixed (join_prefix _))
      by (by apply join_prefix_ends).
    change (join_prefix EmptyString +:+ n) with n.
    unfold resolve. rewrite Hn. by rewrite os_path_join_relative.
  - destruct (PyStr.starts_with_slash (String c path)) eqn:E.
    + rewrite (resolve_absolute w (String c path)) by done.
      apply resolve_absolute.
      rewrite starts_with_slash_app by (by apply join_prefix_nonempty).
      by apply join_prefix_starts.
    + unfold resolve.
      rewrite starts_with_slash_app by (by apply join_prefix_nonempty).
      assert (PyStr.starts_with_slash (join_prefix (String c path)) = false)
        as -> by (unfold join_prefix;
                  by destruct (ends_with_slash (String c path))).
      rewrite E. rewrite !os_path_join_relative; try done.
      * rewrite join_prefix_app by done. by rewrite append_assoc.
      * rewrite starts_with_slash_app by (by apply join_prefix_nonempty).
        unfold join_prefix.
        by destruct (ends_with_slash (String c path)).
Qed.

(** ... is the file [load] opens under [os.path.abspath(path)]. *)
Lemma resolve_join_load w path n :
  PyStr.starts_with_slash n = false ->
  resolve w (os_path_join (resolve w path) n) = entry_key w path n.
Proof.
  intros Hn. unfold entry_key. rewrite os_path_join_relative by done.
  apply resolve_absolute.
  rewrite starts_with_slash_app
    by (apply join_prefix_nonempty, resolve_nonempty).
  apply join_prefix_starts, resolve_starts.
Qed.

Lemma ends_has_slash a n : ends_with_slash a = true -> has_slash (a +:+ n) = true.
Proof.
  induction a as [|c a IH]; [done|]. intros H.
  destruct a as [|c' a].
  - simpl in H. simpl. unfold has_slash. simpl. by rewrite H.
  - rewrite ends_with_slash_cons in H by done.
    change (has_slash (String c (String c' a +:+ n)) = true).
    unfold has_slash in *. simpl. simpl in IH. rewrite (IH H).
    by rewrite orb_true_r.
Qed.

Lemma rsplit_slash_app a n :
  ends_with_slash a = true -> has_slash n = false ->
  rsplit_slash (a +:+ n) = (a, n).
Proof.
  intros Ha Hn. induction a as [|c a IH]; [done|].
  destruct a as [|c' a].
  - simpl in Ha. change (String c EmptyString +:+ n) with (String c n).
    cbn [rsplit_slash]. rewrite Hn, Ha.
    by destruct (rsplit_slash n).
  - rewrite ends_with_slash_cons in Ha by done.
    change (rsplit_slash (String c (String c' a +:+ n)) = (String c (String c' a), n)).
    cbn [rsplit_slash]. rewrite (IH Ha).
    fold (has_slash (String c' a +:+ n)). by rewrite ends_has_slash.
Qed.

Lemma drop_last_slash a : drop_last (a +:+ "/") = a.
Proof.
  induction a as [|c a IH]; [done|].
  change (drop_last (String c (a +:+ "/")) = String c a).
  destruct (a +:+ "/") eqn:E.
  - by destruct a.
  - rewrite <- IH. reflexivity.
Qed.

Lemma parent_of_entry (f : gmap string node) a n :
  a <> EmptyString -> f !! a = Some Dir -> has_slash n = false ->
  parent_is_dir f (join_prefix a +:+ n) = true.
Proof.
  intros Ha Hdir Hn. unfold parent_is_dir.
  rewrite rsplit_slash_app by (by try apply join_prefix_ends).
  destruct (join_prefix_cases a) as [(-> & _) | (-> & _ & _)].
  - by rewrite Hdir.
  - rewrite drop_last_slash, Hdir. by rewrite orb_true_r.
Qed.

Lemma entry_not_dir_key a n : n <> EmptyString -> join_prefix a +:+ n <> a.
Proof.
  intros Hn H. apply (f_equal String.length) in H.
  rewrite append_length in H.
  assert (String.length n <> 0%nat) by (by destruct n).
  destruct (join_prefix_cases a) as [(E & _) | (E & _ & _)]; rewrite E in H.
  - lia.
  - rewrite append_length in H. simpl in H. lia.
Qed.

End Paths.

(** ** [save] and [load] as folds over the entries of a checkpoint *)

Lemma save_entries_app sm prefix es1 es2 f :
  save_entries sm prefix (es1 ++ es2) f =
  match save_entries sm prefix es1 f with
  | (Return _, f1) => save_entries sm prefix es2 f1
  | (Raise ex, f1) => (Raise ex, f1)
  end.
Proof.
  revert f. induction es1 as [|e es1 IH]; intros f; [done|].
  cbn [app save_entries].
  destruct (f !! (prefix +:+ entry_file e)) as [[|c]|]; try done;
    destruct (parent_is_dir f _); try done;
    destruct (entry_content sm e); try done; apply IH.
Qed.

Lemma load_entries_app f g prefix es1 es2 sm :
  load_entries f g prefix (es1 ++ es2) sm =
  match load_entries f g prefix es1 sm with
  | (Return _, sm1) => load_entries f g prefix es2 sm1
  | (Raise ex, sm1) => (Raise ex, sm1)
  end.
Proof.
  revert sm. induction es1 as [|e es1 IH]; intros sm; [done|].
  cbn [app load_entries]. destruct (read_entry f g prefix e); [apply IH|done].
Qed.

Lemma set_fs_id w : set_fs (fs w) w = w.
Proof. by destruct w. Qed.

Lemma bind_eq {A B} (m : M A) (k : A -> M B) w :
  bind m k w = match m w with
               | (Return a, w') => k a w'
               | (Raise e, w') => (Raise e, w')
               end.
Proof. reflexivity. Qed.

Lemma save_config_step path name w :
  PyStr.starts_with_slash (name +:+ ".json") = false ->
  (let* f := open_w (os_path_join path (name +:+ ".json")) in
   let* obj := sys_modules_getitem name in
   json_dump obj f true 4) w
  = save_step w (join_prefix (resolve w path)) (Config name).
Proof.
  intros Hname. unfold save_step, bind, open_w.
  rewrite (resolve_join_save w path _ Hname). unfold entry_key.
  cbn [entry_file].
  set (key := join_prefix (resolve w path) +:+ name +:+ ".json").
  destruct (fs w !! key) as [[|c0]|]; [done| |];
    (destruct (parent_is_dir (fs w) key); [|done]);
    unfold sys_modules_getitem, entry_content, json_dump, bind, lift, write;
    cbn [sys_modules set_fs entry_module fs];
    (destruct (sys_modules w !! name) as [v|]; [|done]);
    (destruct (to_json true v) as [doc|ex]; [|done]);
    cbn [obind]; unfold set_fs; cbn [sys_modules fs cwd stdout globals];
    by rewrite insert_insert_eq.
Qed.

Lemma save_role_step path name w :
  (let* f := open_w (os_path_join path ("seisflows_" +:+ name +:+ ".p")) in
   let* obj := sys_modules_getitem ("seisflows_" +:+ name) in
   pickle_dump obj f) w
  = save_step w (join_prefix (resolve w path)) (Role name).
Proof.
  unfold save_step, bind, open_w.
  rewrite (resolve_join_save w path ("seisflows_" +:+ name +:+ ".p") eq_refl).
  unfold entry_key.
  cbn [entry_file].
  set (key := join_prefix (resolve w path) +:+ "seisflows_" +:+ name +:+ ".p").
  destruct (fs w !! key) as [[|c0]|]; [done| |];
    (destruct (parent_is_dir (fs w) key); [|done]);
    unfold sys_modules_getitem, entry_content, pickle_dump, bind, lift, write;
    cbn [sys_modules set_fs entry_module fs]; unfold role_key;
    (destruct (sys_modules w !! ("seisflows_" +:+ name)) as [v|]; [|done]);
    (destruct (dumps v) as [p|ex]; [|done]);
    cbn [obind]; unfold set_fs; cbn [sys_modules fs cwd stdout globals];
    by rewrite insert_insert_eq.
Qed.

Lemma save_steps_entries (body : string -> M unit) (mk : string -> entry)
    path names :
  (forall name w, name ∈ names ->
     body name w = save_step w (join_prefix (resolve w path)) (mk name)) ->
  forall w,
  for_ names body w
  = let '(r, f') := save_entries (sys_modules w) (join_prefix (resolve w path))
                      (map mk names) (fs w) in
    (r, set_fs f' w).
Proof.
  induction names as [|name names IH]; intros Hbody w.
  - simpl. unfold ret. by rewrite set_fs_id.
  - cbn [for_ map save_entries]. rewrite bind_eq.
    rewrite Hbody by apply list_elem_of_here. unfold save_step.
    set (key := join_prefix (resolve w path) +:+ entry_file (mk name)).
    destruct (fs w !! key) as [[|c0]|]; [by rewrite set_fs_id| |];
      (destruct (parent_is_dir (fs w) key); [|by rewrite set_fs_id]);
      (destruct (entry_content (sys_modules w) (mk name)) as [c|ex]; [|done]);
      rewrite IH by (intros; apply Hbody; by apply list_elem_of_further);
      reflexivity.
Qed.

Lemma save_config_loop path names w :
  Forall (fun name => PyStr.starts_with_slash (name +:+ ".json") = false) names ->
  for_ names (fun name =>
    let fullfile := os_path_join path (name +:+ ".json") in
    let* f := open_w fullfile in
    let* obj := sys_modules_getitem name in
    json_dump obj f true 4) w
  = let '(r, f') := save_entries (sys_modules w) (join_prefix (resolve w path))
                      (map Config names) (fs w) in
    (r, set_fs f' w).
Proof.
  intros Hnames. apply save_steps_entries.
  intros name w' Hin. apply save_config_step.
  by apply (proj1 (Forall_forall _ _) Hnames).
Qed.

Lemma save_role_loop path names w :
  for_ names (fun name =>
    let fullfile := os_path_join path ("seisflows_" +:+ name +:+ ".p") in
    let* f := open_w fullfile in
    let* obj := sys_modules_getitem ("seisflows_" +:+ name) in
    pickle_dump obj f) w
  = let '(r, f') := save_entries (sys_modules w) (join_prefix (resolve w path))
                      (map Role names) (fs w) in
    (r, set_fs f' w).
Proof.
  apply save_steps_entries. intros name w' _. apply save_role_step.
Qed.

Lemma save_eq path w :
  save path w =
  let '(r, f') := save_entries (sys_modules w) (join_prefix (resolve w path))
                    expected (with_directory w path) in
  (r, set_fs f' w).
Proof.
  unfold save, expected, with_directory.
  unfold bind at 1. unfold os_path_exists.
  set (w0 := set_fs (if bool_decide (is_Some (fs w !! resolve w path))
                     then fs w else <[resolve w path := Dir]> (fs w)) w).
  assert (Hw0 : (let* _ := if negb (bool_decide (is_Some (fs w !! resolve w path)))
                           then unix_mkdir path else ret tt in ret tt) w
                = (Return tt, w0)).
  { unfold w0. destruct (bool_decide (is_Some (fs w !! resolve w path)));
      [by rewrite set_fs_id|done]. }
  unfold bind at 1.
  assert (Hfirst : (if negb (bool_decide (is_Some (fs w !! resolve w path)))
                    then unix_mkdir path else ret tt) w = (Return tt, w0)).
  { unfold w0. destruct (bool_decide (is_Some (fs w !! resolve w path)));
      [by rewrite set_fs_id|done]. }
  rewrite Hfirst. clear Hw0 Hfirst.
  unfold bind at 1.
  rewrite save_config_loop by (repeat constructor).
  rewrite save_entries_app.
  change (resolve w0 path) with (resolve w path).
  change (sys_modules w0) with (sys_modules w).
  destruct (save_entries (sys_modules w) (join_prefix (resolve w path))
              (map Config ["seisflows_parameters"; "seisflows_paths"]) (fs w0))
    as [[[]|ex] f1] eqn:E1.
  - change (map Config ["seisflows_parameters"; "seisflows_paths"])
      with [Config "seisflows_parameters"; Config "seisflows_paths"] in E1.
    unfold w0 in E1. cbn [fs set_fs] in E1. rewrite E1.
    rewrite save_role_loop.
    change (resolve (set_fs f1 w0) path) with (resolve w path).
    change (sys_modules (set_fs f1 w0)) with (sys_modules w).
    change (fs (set_fs f1 w0)) with f1.
    by destruct (save_entries _ _ (map Role NAMES) f1).
  - change (map Config ["seisflows_parameters"; "seisflows_paths"])
      with [Config "seisflows_parameters"; Config "seisflows_paths"] in E1.
    unfold w0 in E1. cbn [fs set_fs] in E1. by rewrite E1.
Qed.

Lemma load_config_step path name w :
  PyStr.starts_with_slash (name +:+ ".json") = false ->
  (let* dir := os_path_abspath path in
   let fullfile := os_path_join dir (name +:+ ".json") in
   let* f := open_r fullfile in
   let* v := json_load f in
   let* d := lift (Dict v) in
   sys_modules_setitem name d) w
  = load_step w (join_prefix (resolve w path)) (Config name).
Proof.
  intros Hname. unfold load_step, read_entry, bind, os_path_abspath, open_r.
  rewrite (resolve_join_load w path _ Hname). unfold entry_key.
  cbn [entry_file].
  destruct (fs w !! (join_prefix (resolve w path) +:+ name +:+ ".json"))
    as [[|[|i doc|p]]|]; try done;
    unfold json_load, ret, lift; by destruct (Dict (of_json doc)).
Qed.

Lemma load_role_step path name w :
  (let* dir := os_path_abspath path in
   let fullfile := os_path_join dir ("seisflows_" +:+ name +:+ ".p") in
   let* f := open_r fullfile in
   let* v := pickle_load f in
   sys_modules_setitem ("seisflows_" +:+ name) v) w
  = load_step w (join_prefix (resolve w path)) (Role name).
Proof.
  unfold load_step, read_entry, bind, os_path_abspath, open_r.
  rewrite (resolve_join_load w path ("seisflows_" +:+ name +:+ ".p") eq_refl).
  unfold entry_key. cbn [entry_file].
  destruct (fs w !! (join_prefix (resolve w path) +:+ "seisflows_" +:+ name +:+ ".p"))
    as [[|[|i doc|p]]|]; try done;
    unfold pickle_load; by destruct (loads (globals w) p).
Qed.

Lemma load_steps_entries (body : string -> M unit) (mk : string -> entry)
    path names :
  (forall name w, name ∈ names ->
     body name w = load_step w (join_prefix (resolve w path)) (mk name)) ->
  forall w,
  for_ names body w
  = let '(r, sm) := load_entries (fs w) (globals w)
                      (join_prefix (resolve w path)) (map mk names)
                      (sys_modules w) in
    (r, set_sys_modules sm w).
Proof.
  induction names as [|name names IH]; intros Hbody w.
  - simpl. unfold ret. by rewrite set_sys_modules_id.
  - cbn [for_ map load_entries]. rewrite bind_eq.
    rewrite Hbody by apply list_elem_of_here. unfold load_step.
    destruct (read_entry (fs w) (globals w) _ (mk name)) as [v|ex];
      [|by rewrite set_sys_modules_id].
    rewrite IH by (intros; apply Hbody; by apply list_elem_of_further).
    reflexivity.
Qed.

Lemma load_eq path w :
  load path w =
  let '(r, sm) := load_entries (fs w) (globals w)
                    (join_prefix (resolve w path)) expected (sys_modules w) in
  (r, set_sys_modules sm w).
Proof.
  unfold load, expected. rewrite bind_eq.
  rewrite (load_steps_entries _ Config path).
  2:{ intros name w' Hin. apply load_config_step.
      apply elem_of_cons in Hin as [->|Hin]; [done|].
      apply elem_of_cons in Hin as [->|Hin]; [done|].
      by apply elem_of_nil in Hin. }
  rewrite load_entries_app.
  change (map Config ["seisflows_parameters"; "seisflows_paths"])
    with [Config "seisflows_parameters"; Config "seisflows_paths"].
  destruct (load_entries (fs w) (globals w) (join_prefix (resolve w path))
              [Config "seisflows_parameters"; Config "seisflows_paths"]
              (sys_modules w)) as [[[]|ex] sm1]; [|done].
  rewrite (load_steps_entries _ Role path)
    by (intros name w' _; apply load_role_step).
  reflexivity.
Qed.

(** ** Encoders and decoders *)

Lemma pyval_ind' (P : pyval -> Prop) :
  P VNone ->
  (forall b, P (VBool b)) ->
  (forall z, P (VInt z)) ->
  (forall s, P (VStr s)) ->
  (forall l, Forall P l -> P (VList l)) ->
  (forall d, Forall (fun kv => P kv.2) d -> P (VDict d)) ->
  (forall c, P (VClass c)) ->
  (forall f, P (VFunction f)) ->
  (forall c d, Forall (fun kv => P kv.2) d -> P (VInstance c d)) ->
  (forall f self, P self -> P (VMethod f self)) ->
  forall v, P v.
Proof.
  intros HNone HBool HInt HStr HList HDict HClass HFunction HInstance HMethod.
  fix IH 1. intros [|b|z|s|l|d|c|f|c d|f self].
  - exact HNone.
  - apply HBool.
  - apply HInt.
  - apply HStr.
  - apply HList. induction l as [|x l IHl]; constructor; [apply IH|exact IHl].
  - apply HDict. induction d as [|[k x] d IHd]; constructor; [apply IH|exact IHd].
  - apply HClass.
  - apply HFunction.
  - apply HInstance.
    induction d as [|[k x] d IHd]; constructor; [apply IH|exact IHd].
  - apply HMethod, IH.
Qed.

Lemma map_outcome_cons {A B} (f : A -> outcome B) x l :
  map_outcome f (x :: l) =
  obind (f x) (fun y => obind (map_outcome f l) (fun ys => Return (y :: ys))).
Proof. reflexivity. Qed.

Lemma map_outcome_Return {A B} (f : A -> outcome B) l ys :
  map_outcome f l = Return ys -> Forall2 (fun x y => f x = Return y) l ys.
Proof.
  revert ys. induction l as [|x l IH]; intros ys.
  - intros [= <-]. constructor.
  - rewrite map_outcome_cons. destruct (f x) as [y|] eqn:Hx; [|done].
    cbn [obind]. destruct (map_outcome f l) as [ys'|]; [|done].
    intros [= <-]. constructor; auto.
Qed.

Lemma to_json_list sk l :
  to_json sk (VList l) =
  obind (map_outcome (to_json sk) l) (fun js => Return (JArr js)).
Proof. reflexivity. Qed.

Lemma to_json_dict sk d :
  to_json sk (VDict d) =
  obind (map_outcome (fun kv => obind (to_json sk kv.2)
                                  (fun j => Return (kv.1, j))) d)
    (fun ms => Return (JObj (if sk then merge_sort member_le ms else ms))).
Proof. reflexivity. Qed.

(** With [sort_keys=True] the keys of every object come out in order. *)
Lemma to_json_sorted v : forall doc,
  to_json true v = Return doc -> json_sorted doc.
Proof.
  induction v as [| | | |l IH|d IH| | | |] using pyval_ind'; intros doc;
    try (intros [= <-]; constructor); try discriminate.
  - rewrite to_json_list.
    destruct (map_outcome (to_json true) l) as [js|] eqn:E; [|done].
    intros [= <-]. constructor.
    apply map_outcome_Return in E.
    induction E as [|x j l js Hx _ IHE]; [constructor|].
    apply Forall_cons in IH as [IHx IHl]. constructor; auto.
  - rewrite to_json_dict.
    destruct (map_outcome _ d) as [ms|] eqn:E; [|done].
    intros [= <-]. constructor; [apply Sorted_merge_sort, _|].
    rewrite merge_sort_Permutation.
    apply map_outcome_Return in E.
    induction E as [|x j l js Hx _ IHE]; [constructor|].
    apply Forall_cons in IH as [IHx IHl]. constructor; [|auto].
    destruct (to_json true x.2) as [jx|] eqn:Ej; [|done].
    injection Hx as <-. simpl. by apply IHx.
Qed.

(** The encoding of a dict is an object, which [Dict] takes back. *)
Lemma to_json_dict_loads sk d doc :
  to_json sk (VDict d) = Return doc -> exists d', Dict (of_json doc) = Return (VDict d').
Proof.
  rewrite to_json_dict. destruct (map_outcome _ d) as [ms|]; [|done].
  intros [= <-]. simpl. eauto.
Qed.

Lemma dumps_list l :
  dumps (VList l) = obind (map_outcome dumps l) (fun ps => Return (PList ps)).
Proof. reflexivity. Qed.

Lemma dumps_dict d :
  dumps (VDict d) =
  obind (map_outcome (fun kv => obind (dumps kv.2) (fun p => Return (kv.1, p))) d)
    (fun ps => Return (PDict ps)).
Proof. reflexivity. Qed.

Lemma dumps_instance c d :
  dumps (VInstance c d) =
  obind (map_outcome (fun kv => obind (dumps kv.2) (fun p => Return (kv.1, p))) d)
    (fun ps => Return (PObject (cls_name c) ps)).
Proof. reflexivity. Qed.

Lemma dumps_method f self : dumps (VMethod f self) = Raise AttributeError.
Proof. reflexivity. Qed.

Lemma loads_list g l :
  loads g (PList l) =
  obind (map_outcome (loads g) l) (fun vs => Return (VList vs)).
Proof. reflexivity. Qed.

Lemma loads_dict g d :
  loads g (PDict d) =
  obind (map_outcome (fun kp => obind (loads g kp.2)
                                  (fun v => Return (kp.1, v))) d)
    (fun vs => Return (VDict vs)).
Proof. reflexivity. Qed.

Lemma loads_object g cls state :
  loads g (PObject cls state) =
  match g !! cls with
  | Some (VClass c) =>
      obind (map_outcome (fun kp => obind (loads g kp.2)
                                      (fun v => Return (kp.1, v))) state)
        (fun vs => Return (VInstance c vs))
  | Some _ => Raise TypeError
  | None => Raise AttributeError
  end.
Proof. reflexivity. Qed.

Lemma loads_reduce g callable args :
  loads g (PReduce callable args) =
  obind (map_outcome (loads g) args) (fun vs =>
    if String.eqb callable unpickle_method_name then
      match vs with
      | [VStr func_name; obj; VClass cls] => _unpickle_method func_name obj cls
      | _ => Raise TypeError
      end
    else Raise UnpicklingError).
Proof. reflexivity. Qed.


(** X16. Reading a pickle that holds an encoded bound method, that is the
    reduction [(_unpickle_method, (name, object, class))]: [pickle.loads]
    rebuilds the object and the class, calls [_unpickle_method] on them,
    and so returns the function that the class's resolution order has
    under the name, bound to the rebuilt object. *)
Lemma loads_encoded_method g func_name pobj cname obj cls c func :
  loads g pobj = Return obj -> obj <> VNone ->
  g !! cname = Some (VClass cls) ->
  first_definer func_name cls c (AFunction func) ->
  loads g (PReduce unpickle_method_name [PStr func_name; pobj; PGlobal cname])
  = Return (VMethod func obj).
Proof.
  intros Hobj Hnn Hcls Hdef. rewrite loads_reduce, !map_outcome_cons.
  cbn [loads obind map_outcome]. rewrite Hobj. cbn [obind]. rewrite Hcls.
  cbn [obind]. rewrite String.eqb_refl.
  by apply (unpickle_method_found func_name obj cls c func).
Qed.

(** When no class has the name any more, reading that pickle raises. *)
Lemma loads_drifted_method g func_name pobj cname obj cls :
  loads g pobj = Return obj ->
  g !! cname = Some (VClass cls) ->
  Forall (fun k => cls_dict k !! func_name = None) (mro cls) ->
  loads g (PReduce unpickle_method_name [PStr func_name; pobj; PGlobal cname])
  = Raise UnboundLocalError.
Proof.
  intros Hobj Hcls Hnone. rewrite loads_reduce, !map_outcome_cons.
  cbn [loads obind map_outcome]. rewrite Hobj. cbn [obind]. rewrite Hcls.
  cbn [obind]. rewrite String.eqb_refl.
  by apply unpickle_method_missing.
Qed.

Lemma items_roundtrip g (d : list (string * pyval)) :
  Forall (fun kv => exists p, dumps kv.2 = Return p /\
                      loads g p = Return kv.2) d ->
  exists ps,
    map_outcome (fun kv => obind (dumps kv.2) (fun p => Return (kv.1, p))) d
      = Return ps /\
    map_outcome (fun kp => obind (loads g kp.2) (fun v => Return (kp.1, v))) ps
      = Return d.
Proof.
  induction 1 as [|[k x] d (p & Hp & Hv) _ (ps & Hps & Hvs)].
  - by exists [].
  - exists ((k, p) :: ps). rewrite !map_outcome_cons. cbn [fst snd] in *.
    rewrite Hp. cbn [obind fst snd]. rewrite Hps. split; [done|].
    rewrite Hv. cbn [obind]. by rewrite Hvs.
Qed.

Lemma list_roundtrip g (l : list pyval) :
  Forall (fun x => exists p, dumps x = Return p /\ loads g p = Return x) l ->
  exists ps,
    map_outcome dumps l = Return ps /\ map_outcome (loads g) ps = Return l.
Proof.
  induction 1 as [|x l (p & Hp & Hv) _ (ps & Hps & Hvs)].
  - by exists [].
  - exists (p :: ps). rewrite !map_outcome_cons, Hp. cbn [obind].
    rewrite Hps. split; [done|]. rewrite Hv. cbn [obind]. by rewrite Hvs.
Qed.

Lemma picklable_inv g v :
  picklable g v ->
  match v with
  | VList l => Forall (picklable g) l
  | VDict d => Forall (fun kv => picklable g kv.2) d
  | VClass c => g !! cls_name c = Some (VClass c)
  | VFunction f => g !! fn_name f = Some (VFunction f)
  | VInstance c d =>
      g !! cls_name c = Some (VClass c) /\
      Forall (fun kv => picklable g kv.2) d
  | VMethod _ _ => False
  | _ => True
  end.
Proof. intros H. destruct H; eauto. Qed.

Lemma Forall_modus {A} (P Q : A -> Prop) l :
  Forall (fun x => P x -> Q x) l -> Forall P l -> Forall Q l.
Proof.
  intros H1 H2. apply Forall_forall. intros x Hx.
  apply (proj1 (Forall_forall _ _) H1 x Hx).
  by apply (proj1 (Forall_forall _ _) H2 x Hx).
Qed.

(** [pickle.loads] rebuilds what [pickle.dumps] wrote. *)
Lemma pickle_roundtrip g v :
  picklable g v -> exists p, dumps v = Return p /\ loads g p = Return v.
Proof.
  induction v as [|b|z|s|l IH|d IH|c|f|c d IH|f self IH] using pyval_ind';
    intros Hp; apply picklable_inv in Hp.
  - by exists PNone.
  - by exists (PBool b).
  - by exists (PInt z).
  - by exists (PStr s).
  - destruct (list_roundtrip g l (Forall_modus _ _ l IH Hp))
      as (ps & Hps & Hvs).
    exists (PList ps). rewrite dumps_list, Hps. split; [done|].
    by rewrite loads_list, Hvs.
  - destruct (items_roundtrip g d (Forall_modus _ _ d IH Hp))
      as (ps & Hps & Hvs).
    exists (PDict ps). rewrite dumps_dict, Hps. split; [done|].
    by rewrite loads_dict, Hvs.
  - exists (PGlobal (cls_name c)). split; [done|]. simpl. by rewrite Hp.
  - exists (PGlobal (fn_name f)). split; [done|]. simpl. by rewrite Hp.
  - destruct Hp as [Hc Hd].
    destruct (items_roundtrip g d (Forall_modus _ _ d IH Hd))
      as (ps & Hps & Hvs).
    exists (PObject (cls_name c) ps). rewrite dumps_instance, Hps.
    split; [done|]. by rewrite loads_object, Hc, Hvs.
  - done.
Qed.

(** ** Writing and registering the entries *)

Section InsertAll.

Context {A E : Type} (key : E -> string) (val : E -> outcome A).

Lemma insert_all_cons e es (m : gmap string A) :
  insert_all key val (e :: es) m =
  insert_all key val es (match val e with
                         | Return v => <[key e := v]> m
                         | Raise _ => m
                         end).
Proof. reflexivity. Qed.

Lemma insert_all_lookup_out es (m : gmap string A) k :
  k ∉ map key es -> insert_all key val es m !! k = m !! k.
Proof.
  revert m. induction es as [|e es IH]; intros m Hk; [done|].
  rewrite insert_all_cons.
  apply not_elem_of_cons in Hk as [Hne Hk]. rewrite IH by done.
  destruct (val e); [|done]. by rewrite lookup_insert_ne.
Qed.

Lemma insert_all_lookup_in es (m : gmap string A) e v :
  NoDup (map key es) -> e ∈ es -> val e = Return v ->
  insert_all key val es m !! key e = Some v.
Proof.
  revert m. induction es as [|e0 es IH]; intros m Hnd Hin Hv.
  - by apply elem_of_nil in Hin.
  - rewrite insert_all_cons. apply NoDup_cons in Hnd as [Hfresh Hnd].
    apply elem_of_cons in Hin as [->|Hin].
    + rewrite insert_all_lookup_out by done. rewrite Hv.
      apply lookup_insert_eq.
    + by apply IH.
Qed.

End InsertAll.

Lemma expected_files :
  Forall (fun e => has_slash (entry_file e) = false /\ entry_file e <> EmptyString)
    expected.
Proof. repeat constructor; done. Qed.

Lemma expected_files_NoDup : NoDup (map entry_file expected).
Proof. apply (bool_decide_unpack _). vm_compute. exact I. Qed.

Lemma expected_modules_NoDup : NoDup (map entry_module expected).
Proof. apply (bool_decide_unpack _). vm_compute. exact I. Qed.

Lemma expected_keys_NoDup prefix :
  NoDup (map (fun e => prefix +:+ entry_file e) expected).
Proof.
  change (map (fun e => prefix +:+ entry_file e) expected)
    with (String.app prefix ∘ entry_file <$> expected).
  rewrite list_fmap_compose. apply NoDup_fmap_2; [apply _|].
  apply expected_files_NoDup.
Qed.

Lemma save_entries_ok sm dir es f :
  dir <> EmptyString -> f !! dir = Some Dir ->
  Forall (fun e => has_slash (entry_file e) = false /\ entry_file e <> EmptyString) es ->
  Forall (fun e => f !! (join_prefix dir +:+ entry_file e) <> Some Dir) es ->
  Forall (fun e => exists c, entry_content sm e = Return c) es ->
  save_entries sm (join_prefix dir) es f
  = (Return tt, write_entries sm (join_prefix dir) es f).
Proof.
  intros Hdir. revert f.
  induction es as [|e es IH]; intros f Hf Hfiles Hnodir Hcontent; [done|].
  apply Forall_cons in Hfiles as [[Hslash Hne] Hfiles].
  apply Forall_cons in Hnodir as [Hkey Hnodir].
  apply Forall_cons in Hcontent as [[c Hc] Hcontent].
  unfold write_entries. rewrite insert_all_cons. cbn [save_entries].
  rewrite Hc. cbn [obind].
  rewrite (parent_of_entry f dir (entry_file e) Hdir Hf Hslash).
  assert (Hnext : save_entries sm (join_prefix dir) es
                    (<[join_prefix dir +:+ entry_file e := File c]> f)
                  = (Return tt, write_entries sm (join_prefix dir) es
                       (<[join_prefix dir +:+ entry_file e := File c]> f))).
  { apply IH; try done.
    - rewrite lookup_insert_ne; [done|]. by apply entry_not_dir_key.
    - eapply Forall_impl; [exact Hnodir|]. intros e' He'. simpl in *.
      rewrite lookup_insert. case_decide; [done|exact He']. }
  destruct (f !! (join_prefix dir +:+ entry_file e)) as [[|c0]|]; done.
Qed.

Lemma load_entries_ok f g prefix es sm :
  Forall (fun e => exists v, read_entry f g prefix e = Return v) es ->
  load_entries f g prefix es sm = (Return tt, register_entries f g prefix es sm).
Proof.
  intros H. revert sm. induction H as [|e es [v Hv] _ IH]; intros sm; [done|].
  unfold register_entries. rewrite insert_all_cons. cbn [load_entries].
  rewrite Hv. apply IH.
Qed.

Lemma load_entries_fail f g prefix done e rest sm ex :
  Forall (fun e => exists v, read_entry f g prefix e = Return v) done ->
  read_entry f g prefix e = Raise ex ->
  load_entries f g prefix (done ++ e :: rest) sm
  = (Raise ex, register_entries f g prefix done sm).
Proof.
  intros Hdone He. rewrite load_entries_app, load_entries_ok by done.
  cbn [load_entries]. by rewrite He.
Qed.

Lemma first_unreadable f g prefix es :
  Exists (fun e => exists ex, read_entry f g prefix e = Raise ex) es ->
  exists done e rest ex,
    es = (done ++ e :: rest)%list /\
    Forall (fun e => exists v, read_entry f g prefix e = Return v) done /\
    read_entry f g prefix e = Raise ex.
Proof.
  induction es as [|e es IH]; intros H; [by apply Exists_nil in H|].
  destruct (read_entry f g prefix e) as [v|ex] eqn:He.
  - apply Exists_cons in H as [[ex Hex]|H]; [congruence|].
    destruct (IH H) as (done & e' & rest & ex & -> & Hdone & He').
    exists (e :: done), e', rest, ex. split; [done|]. split; [|done].
    constructor; eauto.
  - exists [], e, es, ex. split; [done|]. split; [constructor|done].
Qed.

(** ** Saving a session *)

Lemma config_in_expected name :
  name ∈ ["seisflows_parameters"; "seisflows_paths"] -> Config name ∈ expected.
Proof.
  intros H. unfold expected. apply elem_of_app. left.
  by apply (list_elem_of_fmap_2 Config) in H.
Qed.

Lemma role_in_expected name : name ∈ NAMES -> Role name ∈ expected.
Proof.
  intros H. unfold expected. apply elem_of_app. right.
  by apply (list_elem_of_fmap_2 Role) in H.
Qed.

Lemma session_config w name :
  session_state w -> name ∈ ["seisflows_parameters"; "seisflows_paths"] ->
  exists d doc,
    sys_modules w !! name = Some (VDict d) /\
    to_json true (VDict d) = Return doc /\
    entry_content (sys_modules w) (Config name) = Return (JsonText 4 doc).
Proof.
  intros [Hcfg _] Hname.
  destruct (proj1 (Forall_forall _ _) Hcfg name Hname) as (d & doc & Hd & Hdoc).
  exists d, doc. split; [done|]. split; [done|].
  unfold entry_content. cbn [entry_module]. by rewrite Hd, Hdoc.
Qed.

Lemma session_role w name :
  session_state w -> name ∈ NAMES ->
  exists v p,
    sys_modules w !! role_key name = Some v /\
    dumps v = Return p /\
    entry_content (sys_modules w) (Role name) = Return (PickleData p).
Proof.
  intros [_ Hroles] Hname.
  destruct (proj1 (Forall_forall _ _) Hroles name Hname) as (v & p & Hv & Hp).
  exists v, p. split; [done|]. split; [done|].
  unfold entry_content. cbn [entry_module]. by rewrite Hv, Hp.
Qed.

Lemma session_contents w :
  session_state w ->
  Forall (fun e => exists c, entry_content (sys_modules w) e = Return c) expected.
Proof.
  intros Hs. unfold expected. apply Forall_app. split.
  - change [Config "seisflows_parameters"; Config "seisflows_paths"]
      with (Config <$> ["seisflows_parameters"; "seisflows_paths"]).
    rewrite Forall_fmap. apply Forall_forall. intros name Hname. simpl.
    destruct (session_config w name Hs Hname) as (d & doc & _ & _ & Hc).
    by eexists.
  - rewrite Forall_fmap. apply Forall_forall. intros name Hname. simpl.
    destruct (session_role w name Hs Hname) as (v & p & _ & _ & Hc).
    by eexists.
Qed.

Lemma with_directory_dir w path :
  target_ready w path -> with_directory w path !! resolve w path = Some Dir.
Proof.
  intros [[Hd|Hd] _]; unfold with_directory.
  - rewrite bool_decide_eq_false_2 by (rewrite Hd; by intros [? [=]]).
    apply lookup_insert_eq.
  - by rewrite bool_decide_eq_true_2 by (rewrite Hd; eauto).
Qed.

Lemma with_directory_other w path k :
  k <> resolve w path -> with_directory w path !! k = fs w !! k.
Proof.
  intros Hk. unfold with_directory. case_bool_decide; [done|].
  by rewrite lookup_insert_ne.
Qed.

Lemma with_directory_files w path :
  target_ready w path ->
  Forall (fun e => with_directory w path
                     !! (join_prefix (resolve w path) +:+ entry_file e)
                   <> Some Dir) expected.
Proof.
  intros [_ Hfiles].
  pose proof expected_files as Hexp.
  apply Forall_forall. intros e He.
  destruct (proj1 (Forall_forall _ _) Hexp e He) as [_ Hne].
  rewrite with_directory_other by (by apply entry_not_dir_key).
  exact (proj1 (Forall_forall _ _) Hfiles e He).
Qed.

Lemma save_ok w path :
  session_state w -> target_ready w path ->
  save path w =
  (Return tt,
   set_fs (write_entries (sys_modules w) (join_prefix (resolve w path))
             expected (with_directory w path)) w).
Proof.
  intros Hs Ht. rewrite save_eq.
  rewrite save_entries_ok; [done|..].
  - apply resolve_nonempty.
  - by apply with_directory_dir.
  - apply expected_files.
  - by apply with_directory_files.
  - by apply session_contents.
Qed.

Lemma checkpoint_lookup sm prefix f e c :
  e ∈ expected -> entry_content sm e = Return c ->
  write_entries sm prefix expected f !! (prefix +:+ entry_file e)
  = Some (File c).
Proof.
  intros He Hc. unfold write_entries.
  apply (insert_all_lookup_in (fun e => prefix +:+ entry_file e)
           (fun e => obind (entry_content sm e) (fun c => Return (File c)))).
  - apply expected_keys_NoDup.
  - done.
  - by rewrite Hc.
Qed.

(** C8. Given a session state that [json] and [pickle] can encode and a
    target that is a directory or does not exist, [save] succeeds and leaves
    the directory in place; the file of each configuration mapping holds its
    JSON encoding with indent 4 and with the keys of every object in order;
    the file of each role holds the pickle of its instance; the eight files
    are distinct, each named after its mapping or role, and nothing else in
    the file system changes. *)
Theorem save_writes_checkpoint (w : World) (path : string) :
  session_state w -> target_ready w path ->
  exists w',
    save path w = (Return tt, w') /\
    sys_modules w' = sys_modules w /\
    fs w' !! resolve w path = Some Dir /\
    Forall (fun name => exists v doc,
              sys_modules w !! name = Some v /\
              to_json true v = Return doc /\ json_sorted doc /\
              fs w' !! entry_key w path (name +:+ ".json")
                = Some (File (JsonText 4 doc)))
      ["seisflows_parameters"; "seisflows_paths"] /\
    Forall (fun name => exists v p,
              sys_modules w !! role_key name = Some v /\
              dumps v = Return p /\
              fs w' !! entry_key w path ("seisflows_" +:+ name +:+ ".p")
                = Some (File (PickleData p)))
      NAMES /\
    NoDup (map (fun e => entry_key w path (entry_file e)) expected) /\
    (forall k, k <> resolve w path ->
       k ∉ map (fun e => entry_key w path (entry_file e)) expected ->
       fs w' !! k = fs w !! k).
Proof.
  intros Hs Ht. eexists. split; [by apply save_ok|].
  cbn [sys_modules fs set_fs]. split; [done|].
  split; [|split; [|split; [|split]]].
  - unfold write_entries. rewrite insert_all_lookup_out.
    + by apply with_directory_dir.
    + intros Hin. apply list_elem_of_fmap in Hin as (e & He & Hin).
      destruct (proj1 (Forall_forall _ _) expected_files e Hin) as [_ Hne].
      symmetry in He. by apply entry_not_dir_key in He.
  - apply Forall_forall. intros name Hname.
    destruct (session_config w name Hs Hname) as (d & doc & Hd & Hdoc & Hc).
    exists (VDict d), doc. split; [done|]. split; [done|].
    split; [by eapply to_json_sorted|].
    apply (checkpoint_lookup _ _ _ (Config name)); [|done].
    by apply config_in_expected.
  - apply Forall_forall. intros name Hname.
    destruct (session_role w name Hs Hname) as (v & p & Hv & Hp & Hc).
    exists v, p. split; [done|]. split; [done|].
    apply (checkpoint_lookup _ _ _ (Role name)); [|done].
    by apply role_in_expected.
  - apply expected_keys_NoDup.
  - intros k Hk Hout. unfold write_entries.
    rewrite insert_all_lookup_out by exact Hout.
    by apply with_directory_other.
Qed.

Lemma sample_session_state : session_state sample_session.
Proof.
  split.
  - repeat constructor; do 2 eexists; (split; [reflexivity|]);
      vm_compute; reflexivity.
  - repeat constructor; do 2 eexists; (split; [reflexivity|]);
      vm_compute; reflexivity.
Qed.

Lemma sample_target_ready workflow : target_ready (session_with workflow) "ckpt".
Proof.
  split; [left; reflexivity|].
  repeat constructor; vm_compute; discriminate.
Qed.

Lemma save_writes_checkpoint_witness :
  session_state sample_session /\ target_ready sample_session "ckpt" /\
  exists w',
    save "ckpt" sample_session = (Return tt, w') /\
    fs w' !! "/home/ckpt" = Some Dir /\
    fs w' !! "/home/ckpt/seisflows_paths.json"
      = Some (File (JsonText 4 (JObj [("OUTPUT", JStr "/out")]))).
Proof.
  pose proof sample_session_state as Hs.
  pose proof (sample_target_ready an_inversion) as Ht.
  split; [exact Hs|]. split; [exact Ht|].
  destruct (save_writes_checkpoint sample_session "ckpt" Hs Ht)
    as (w' & Hsave & _ & Hdir & Hcfg & _).
  exists w'. split; [exact Hsave|]. split; [exact Hdir|].
  apply Forall_cons in Hcfg as [_ Hcfg].
  apply Forall_cons in Hcfg as [(v & doc & Hv & Hdoc & _ & Hfile) _].
  injection Hv as <-. vm_compute in Hdoc. injection Hdoc as <-. exact Hfile.
Defined.

(** ** Loading a checkpoint *)

(** C2 as stated fails: with the workflow file missing, [load] raises only
    after it has registered the parameters, the paths and the five roles
    that come before. *)
Lemma load_partial_counterexample :
  Exists (fun e => exists ex, read_from torn_checkpoint "/ckpt" e = Raise ex)
    expected /\
  (load "/ckpt" torn_checkpoint).1 = Raise FileNotFoundError /\
  sys_modules torn_checkpoint = ∅ /\
  sys_modules (load "/ckpt" torn_checkpoint).2 !! "seisflows_parameters"
    = Some (VDict [("SOLVER", VStr "specfem2d")]) /\
  sys_modules (load "/ckpt" torn_checkpoint).2 !! "seisflows_system"
    = Some VNone /\
  sys_modules (load "/ckpt" torn_checkpoint).2 <> sys_modules torn_checkpoint.
Proof.
  split.
  { apply Exists_exists. exists (Role "workflow").
    split; [apply role_in_expected; apply (bool_decide_unpack _);
            vm_compute; exact I|].
    exists FileNotFoundError. vm_compute. reflexivity. }
  split; [vm_compute; reflexivity|]. split; [reflexivity|].
  split; [vm_compute; reflexivity|]. split; [vm_compute; reflexivity|].
  intros H. apply (f_equal (fun m => m !! "seisflows_system")) in H.
  vm_compute in H. discriminate.
Qed.

(** C2, amended. When some expected file is missing or unreadable, [load]
    raises the error of the first such file in the order parameters, paths,
    system, preprocess, solver, postprocess, optimize, workflow. The file
    system is untouched; the entries of the files before that one are
    registered with what was read from them, and every other entry of
    [sys.modules] is left as it was. *)
Theorem load_stops_at_first_unreadable (w : World) (path : string) :
  Exists (fun e => exists ex, read_from w path e = Raise ex) expected ->
  exists done e rest ex w',
    expected = (done ++ e :: rest)%list /\
    read_from w path e = Raise ex /\
    load path w = (Raise ex, w') /\
    fs w' = fs w /\
    Forall (fun d => exists v, read_from w path d = Return v /\
                       sys_modules w' !! entry_module d = Some v) done /\
    (forall k, k ∉ map entry_module done ->
       sys_modules w' !! k = sys_modules w !! k).
Proof.
  intros H. unfold read_from in *.
  destruct (first_unreadable _ _ _ _ H)
    as (done & e & rest & ex & Hsplit & Hdone & He).
  exists done, e, rest, ex.
  exists (set_sys_modules
            (register_entries (fs w) (globals w) (join_prefix (resolve w path))
               done (sys_modules w)) w).
  split; [done|]. split; [done|]. split.
  { rewrite load_eq, Hsplit. by rewrite (load_entries_fail _ _ _ _ _ _ _ ex). }
  split; [done|]. cbn [sys_modules set_sys_modules].
  assert (Hnd : NoDup (map entry_module done)).
  { pose proof expected_modules_NoDup as Hall. rewrite Hsplit in Hall.
    rewrite map_app in Hall. by apply NoDup_app in Hall as [? _]. }
  split.
  - apply Forall_forall. intros d Hd.
    destruct (proj1 (Forall_forall _ _) Hdone d Hd) as [v Hv].
    exists v. split; [done|].
    by apply (insert_all_lookup_in entry_module).
  - intros k Hk. by apply (insert_all_lookup_out entry_module).
Qed.

Lemma load_stops_at_first_unreadable_witness :
  exists done e rest ex w',
    expected = (done ++ e :: rest)%list /\
    read_from torn_checkpoint "/ckpt" e = Raise ex /\
    load "/ckpt" torn_checkpoint = (Raise ex, w') /\
    fs w' = fs torn_checkpoint /\
    Forall (fun d => exists v, read_from torn_checkpoint "/ckpt" d = Return v /\
                       sys_modules w' !! entry_module d = Some v) done /\
    (forall k, k ∉ map entry_module done ->
       sys_modules w' !! k = sys_modules torn_checkpoint !! k).
Proof.
  apply (load_stops_at_first_unreadable torn_checkpoint "/ckpt").
  apply Exists_exists. exists (Role "workflow").
  split; [apply role_in_expected; apply (bool_decide_unpack _);
          vm_compute; exact I|].
  exists FileNotFoundError. vm_compute. reflexivity.
Defined.

(** ** Saving and loading back *)

Lemma read_back_config w path f name :
  session_state w -> name ∈ ["seisflows_parameters"; "seisflows_paths"] ->
  exists d d',
    sys_modules w !! name = Some (VDict d) /\
    read_entry
      (write_entries (sys_modules w) (join_prefix (resolve w path)) expected f)
      (globals w) (join_prefix (resolve w path)) (Config name)
    = Return (VDict d').
Proof.
  intros Hs Hname.
  destruct (session_config w name Hs Hname) as (d & doc & Hd & Hdoc & Hc).
  destruct (to_json_dict_loads true d doc Hdoc) as [d' Hd'].
  exists d, d'. split; [done|]. unfold read_entry.
  rewrite (checkpoint_lookup _ _ _ (Config name) _
             (config_in_expected name Hname) Hc).
  exact Hd'.
Qed.

Lemma read_back_role w path f name v :
  session_state w -> name ∈ NAMES ->
  sys_modules w !! role_key name = Some v -> picklable (globals w) v ->
  read_entry
    (write_entries (sys_modules w) (join_prefix (resolve w path)) expected f)
    (globals w) (join_prefix (resolve w path)) (Role name)
  = Return v.
Proof.
  intros Hs Hname Hv Hpk.
  destruct (session_role w name Hs Hname) as (v0 & p & Hv0 & Hp & Hc).
  assert (v0 = v) as -> by congruence.
  destruct (pickle_roundtrip (globals w) v Hpk) as (p' & Hp' & Hv').
  assert (p' = p) as -> by congruence.
  unfold read_entry.
  rewrite (checkpoint_lookup _ _ _ (Role name) _
             (role_in_expected name Hname) Hc).
  exact Hv'.
Qed.


Example checkpoint_roundtrip_sample :
  (save "ckpt" sample_session).1 = Return tt /\
  (load "ckpt" (save "ckpt" sample_session).2).1 = Return tt /\
  sys_modules (load "ckpt" (save "ckpt" sample_session).2).2
    !! "seisflows_workflow" = Some an_inversion.
Proof. repeat split; vm_compute; reflexivity. Qed.

(** ** Saving a session that holds a bound method *)

Lemma dumps_holds_method v : holds_method v -> forall p, dumps v <> Return p.
Proof.
  induction 1 as [f self|l x Hx _ IH|d kv Hkv _ IH|c d kv Hkv _ IH]; intros p.
  - by rewrite dumps_method.
  - rewrite dumps_list.
    destruct (map_outcome dumps l) as [ps|] eqn:E; [|done]. intros _.
    apply map_outcome_Return in E.
    apply list_elem_of_lookup in Hx as [i Hi].
    destruct (Forall2_lookup_l _ _ _ i x E Hi) as (y & _ & Hy).
    by eapply IH.
  - rewrite dumps_dict.
    destruct (map_outcome _ d) as [ps|] eqn:E; [|done]. intros _.
    apply map_outcome_Return in E.
    apply list_elem_of_lookup in Hkv as [i Hi].
    destruct (Forall2_lookup_l _ _ _ i kv E Hi) as (y & _ & Hy).
    destruct (dumps kv.2) as [q|] eqn:Eq; [by eapply IH|done].
  - rewrite dumps_instance.
    destruct (map_outcome _ d) as [ps|] eqn:E; [|done]. intros _.
    apply map_outcome_Return in E.
    apply list_elem_of_lookup in Hkv as [i Hi].
    destruct (Forall2_lookup_l _ _ _ i kv E Hi) as (y & _ & Hy).
    destruct (dumps kv.2) as [q|] eqn:Eq; [by eapply IH|done].
Qed.

Lemma save_entries_Return sm prefix es f f' :
  save_entries sm prefix es f = (Return tt, f') ->
  Forall (fun e => exists c, entry_content sm e = Return c) es.
Proof.
  revert f. induction es as [|e es IH]; intros f; [constructor|].
  cbn [save_entries].
  destruct (f !! (prefix +:+ entry_file e)) as [[|c0]|]; [done| |];
    (destruct (parent_is_dir f _); [|done]);
    (destruct (entry_content sm e) as [c|ex] eqn:Ec; [|done]);
    intros H; (constructor; [by eexists|by eapply IH]).
Qed.

(** C1. The round trip does not get as far as [load] when a role instance
    holds a bound method: [pickle] hands the method to [_pickle_method],
    which raises, and so [save] never returns normally. *)
Theorem save_fails_on_bound_method
    (w : World) (path name : string) (v : pyval) :
  name ∈ NAMES ->
  sys_modules w !! role_key name = Some v ->
  holds_method v ->
  forall w', save path w <> (Return tt, w').
Proof.
  intros Hname Hv Hm w'. rewrite save_eq.
  destruct (save_entries _ _ expected _) as [[[]|ex] f'] eqn:E; [|done].
  intros _. apply save_entries_Return in E.
  destruct (proj1 (Forall_forall _ _) E (Role name) (role_in_expected _ Hname))
    as [c Hc].
  unfold entry_content in Hc. cbn [entry_module] in Hc. rewrite Hv in Hc.
  destruct (dumps v) as [p|] eqn:Ed; [|done].
  by apply (dumps_holds_method v Hm p).
Qed.

Lemma save_fails_on_bound_method_witness :
  (forall w', save "ckpt" callback_session <> (Return tt, w')) /\
  (save "ckpt" callback_session).1 = Raise AttributeError /\
  fs (save "ckpt" callback_session).2 !! "/home/ckpt/seisflows_workflow.p"
    = Some (File Empty) /\
  (load "ckpt" (save "ckpt" callback_session).2).1 = Raise EOFError.
Proof.
  split.
  - apply (save_fails_on_bound_method callback_session "ckpt" "workflow"
             a_workflow).
    + apply (bool_decide_unpack _). vm_compute. exact I.
    + reflexivity.
    + apply (hm_instance _ _ ("callback", VMethod base_setup an_inversion)).
      * apply list_elem_of_further, list_elem_of_here.
      * apply hm_here.
  - repeat split; vm_compute; reflexivity.
Defined.

(** ** More on [custom_import] *)

(** X1. With the module omitted, [custom_import] reads the module name from
    the registered parameters under the upper-cased role name; when that
    entry is a string the call goes on exactly as if the string had been
    passed as [module]. *)
Theorem custom_import_configured
    (pkg : Package) (name m : string) (classname : option string)
    (params : pyval) (w : World) :
  name ∈ NAMES ->
  sys_modules w !! "seisflows_parameters" = Some params ->
  getitem params (PyStr.upper name) = Return (VStr m) ->
  custom_import pkg (Some name) None classname w
  = custom_import pkg (Some name) (Some m) classname w.
Proof.
  intros Hname Hpar Hget.
  unfold custom_import. rewrite (in_NAMES name Hname). cbn [negb].
  unfold bind at 1. unfold try_, bind, sys_modules_getitem, lift.
  by rewrite Hpar, Hget.
Qed.

Lemma custom_import_configured_witness :
  custom_import lbfgs_package (Some "optimize") None None configured_world
  = custom_import lbfgs_package (Some "optimize") (Some "LBFGS") None
      configured_world /\
  custom_import lbfgs_package (Some "optimize") None None configured_world
  = (Return (VClass (PyClass "LBFGS" ∅ [])), configured_world).
Proof.
  split.
  - apply (custom_import_configured lbfgs_package "optimize" "LBFGS" None
             (VDict [("OPTIMIZE", VStr "LBFGS")]) configured_world).
    + apply (bool_decide_unpack _). vm_compute. exact I.
    + reflexivity.
    + reflexivity.
  - vm_compute. reflexivity.
Defined.

(** X2. With a module name given, [custom_import] returns only what the
    imported module [seisflows.<name>.<module>] holds under the class
    identifier, and every failure ends the process: it raises nothing but
    [SystemExit], with status -1 unless the import itself exited. *)
Theorem custom_import_returns_or_exits
    (pkg : Package) (name : option string) (module : string)
    (classname : option string) (w : World) :
  match custom_import pkg name (Some module) classname w with
  | (Return cls, w') =>
      exists n attrs,
        name = Some n /\ n ∈ NAMES /\
        module_exists pkg (full_dotted_name n module) = true /\
        import_module pkg (full_dotted_name n module) w = (Return attrs, w') /\
        attrs !! class_identifier module classname = Some cls
  | (Raise e, w') =>
      exists status, e = SystemExit status /\
        (status = (-1)%Z \/
         exists n, name = Some n /\
           (import_module pkg (full_dotted_name n module) w).1
           = Raise (SystemExit status))
  end.
Proof.
  destruct name as [n|]; cbn [custom_import].
  2:{ unfold bind, print, sys_exit, raise. eauto. }
  destruct (decide (n ∈ NAMES)) as [Hn|Hn].
  2:{ rewrite bool_decide_eq_false_2 by done. cbn [negb].
      unfold bind, print, sys_exit, raise. eauto. }
  rewrite (in_NAMES n Hn). cbn [negb].
  unfold bind at 1.
  replace (match classname with
           | Some classname0 => ret classname0
           | None => let* m := lift (as_str (VStr module) AttributeError) in
                     ret (camelcase_classname m)
           end w)
    with (Return (class_identifier module classname), w)
    by (by destruct classname).
  unfold bind at 1. cbn [lift as_str].
  fold (full_dotted_name n module).
  destruct (module_exists pkg (full_dotted_name n module)) eqn:Hex; cbn [negb].
  2:{ unfold bind, print, sys_exit, raise. eauto. }
  unfold bind at 1. unfold try_.
  destruct (import_module pkg (full_dotted_name n module) w) as [[attrs|e] w1] eqn:Himp.
  - destruct (attrs !! class_identifier module classname) as [cls|] eqn:Hattr.
    + unfold ret. exists n, attrs. by rewrite Himp.
    + unfold bind, print, sys_exit, raise. eauto.
  - destruct e; unfold bind, print, sys_exit, raise; eauto.
    eexists. split; [done|]. right. exists n. by rewrite Himp.
Qed.

(** X3. When the package has no module [seisflows.<name>.<module>],
    [custom_import] prints one message that names it and exits with status
    -1; nothing is imported: but for the printed line the process is as it
    was. *)
Theorem custom_import_module_not_found
    (pkg : Package) (name module : string) (classname : option string)
    (w : World) :
  name ∈ NAMES ->
  module_exists pkg (full_dotted_name name module) = false ->
  custom_import pkg (Some name) (Some module) classname w
  = (Raise (SystemExit (-1)),
     set_stdout (stdout w ++ [not_found_message pkg name module]) w).
Proof.
  intros Hname Hex.
  unfold custom_import. rewrite (in_NAMES name Hname). cbn [negb].
  unfold full_dotted_name in Hex.
  destruct classname as [c|]; unfold bind, ret, lift; cbn -[PyStr.join];
    rewrite Hex; reflexivity.
Qed.

Lemma custom_import_module_not_found_witness :
  custom_import bare_package (Some "solver") (Some "specfem3d") None empty_world
  = (Raise (SystemExit (-1)),
     set_stdout [not_found_message bare_package "solver" "specfem3d"]
       empty_world).
Proof.
  apply (custom_import_module_not_found bare_package "solver" "specfem3d" None
           empty_world).
  - apply (bool_decide_unpack _). vm_compute. exact I.
  - reflexivity.
Defined.

(** X4. When the module exists and importing it raises an exception,
    [custom_import] catches it, prints the message with the text of the
    exception and then the line [None] (what [print(traceback.print_exc())]
    prints), and exits with status -1; [sys.modules] and the file system
    are as the failed import left them. *)
Theorem custom_import_import_fails
    (pkg : Package) (name module : string) (classname : option string)
    (w w1 : World) (e : exn) :
  name ∈ NAMES ->
  module_exists pkg (full_dotted_name name module) = true ->
  import_module pkg (full_dotted_name name module) w = (Raise e, w1) ->
  (forall status, e <> SystemExit status) ->
  custom_import pkg (Some name) (Some module) classname w
  = (Raise (SystemExit (-1)),
     set_stdout (stdout w1 ++ [import_failed_message pkg name module e; "None"])
       w1).
Proof.
  intros Hname Hex Himp He.
  unfold custom_import. rewrite (in_NAMES name Hname). cbn [negb].
  unfold import_failed_message, full_dotted_name in *.
  destruct classname as [c|]; unfold bind, ret, lift, try_; cbn -[PyStr.join];
    rewrite Hex; cbn -[PyStr.join]; rewrite Himp;
    (destruct e; try (by destruct (He status));
     unfold print, sys_exit, raise, set_stdout; cbn -[PyStr.join];
     by rewrite <- app_assoc).
Qed.

Lemma custom_import_import_fails_witness :
  custom_import broken_package (Some "preprocess") (Some "pyaflowa") None
    empty_world
  = (Raise (SystemExit (-1)),
     set_stdout
       [import_failed_message broken_package "preprocess" "pyaflowa" ImportError;
        "None"] empty_world).
Proof.
  apply (custom_import_import_fails broken_package "preprocess" "pyaflowa" None
           empty_world empty_world ImportError).
  - apply (bool_decide_unpack _). vm_compute. exact I.
  - reflexivity.
  - reflexivity.
  - discriminate.
Defined.

(** ** More on [save] and [load] *)

Section InsertAllAgain.

Context {A E : Type} (key : E -> string).

(** Entries written over entries of the same keys leave no trace of the
    first writing. *)
Lemma insert_all_overwrite (val val' : E -> outcome A) es (m : gmap string A) :
  NoDup (map key es) ->
  Forall (fun e => exists v, val' e = Return v) es ->
  insert_all key val' es (insert_all key val es m) = insert_all key val' es m.
Proof.
  intros Hnd Hall. apply map_eq. intros k.
  destruct (decide (k ∈ map key es)) as [Hin|Hout].
  - apply list_elem_of_fmap in Hin as (e & -> & He).
    destruct (proj1 (Forall_forall _ _) Hall e He) as [v Hv].
    by rewrite !(insert_all_lookup_in key val' es _ e v).
  - by rewrite !insert_all_lookup_out.
Qed.

Lemma insert_all_app (val : E -> outcome A) es1 es2 (m : gmap string A) :
  insert_all key val (es1 ++ es2) m
  = insert_all key val es2 (insert_all key val es1 m).
Proof. unfold insert_all. apply foldl_app. Qed.

End InsertAllAgain.

(** [save] does not touch the session: whether it succeeds or fails, only
    the file system can differ afterwards. *)
Lemma save_frame path w :
  exists r f', save path w = (r, set_fs f' w).
Proof.
  rewrite save_eq.
  destruct (save_entries _ _ expected _) as [r f']. eauto.
Qed.

Lemma load_frame path w :
  exists r sm, load path w = (r, set_sys_modules sm w).
Proof.
  rewrite load_eq.
  destruct (load_entries _ _ _ expected _) as [r sm]. eauto.
Qed.

(** X5. [save] reads the session and writes files, nothing else: whether
    it succeeds or fails, [sys.modules], the working directory and what has
    been printed are what they were. *)
Theorem save_leaves_session (path : string) (w : World) :
  sys_modules (save path w).2 = sys_modules w /\
  cwd (save path w).2 = cwd w /\
  stdout (save path w).2 = stdout w /\
  globals (save path w).2 = globals w.
Proof. destruct (save_frame path w) as (r & f' & ->). done. Qed.

(** X6. [load] reads files and registers entries, nothing else: whether it
    succeeds or fails, the file system (the checkpoint with it), the
    working directory and what has been printed are what they were. *)
Theorem load_leaves_files (path : string) (w : World) :
  fs (load path w).2 = fs w /\
  cwd (load path w).2 = cwd w /\
  stdout (load path w).2 = stdout w /\
  globals (load path w).2 = globals w.
Proof. destruct (load_frame path w) as (r & sm & ->). done. Qed.

(** The checkpoint directory is in place once the files are written. *)
Lemma written_directory w path sm :
  target_ready w path ->
  write_entries sm (join_prefix (resolve w path)) expected (with_directory w path)
    !! resolve w path = Some Dir.
Proof.
  intros Ht. unfold write_entries. rewrite insert_all_lookup_out.
  - by apply with_directory_dir.
  - intros Hin. apply list_elem_of_fmap in Hin as (e & He & Hin).
    destruct (proj1 (Forall_forall _ _) expected_files e Hin) as [_ Hne].
    symmetry in He. by apply entry_not_dir_key in He.
Qed.

(** A written checkpoint is a target for the next [save]. *)
Lemma written_target w path :
  session_state w -> target_ready w path ->
  let F := write_entries (sys_modules w) (join_prefix (resolve w path))
             expected (with_directory w path) in
  with_directory (set_fs F w) path = F /\
  Forall (fun e => F !! (join_prefix (resolve w path) +:+ entry_file e)
                   <> Some Dir) expected.
Proof.
  intros Hs Ht F. split.
  - unfold with_directory. cbn [fs set_fs].
    change (resolve (set_fs F w) path) with (resolve w path).
    rewrite bool_decide_eq_true_2; [done|].
    unfold F. rewrite written_directory by done. eauto.
  - apply Forall_forall. intros e He.
    destruct (proj1 (Forall_forall _ _) (session_contents w Hs) e He) as [c Hc].
    unfold F. by rewrite (checkpoint_lookup _ _ _ e c He Hc).
Qed.

(** X7. A checkpoint can be written over: saving a session, and then a
    later session into the same directory, leaves exactly what saving the
    later session alone leaves, so nothing of the earlier checkpoint
    survives; and saving the same session once more changes nothing. *)
Theorem save_overwrites (w : World) (path : string) (sm' : gmap string pyval) :
  session_state w -> target_ready w path ->
  session_state (set_sys_modules sm' w) ->
  exists w1,
    save path w = (Return tt, w1) /\
    save path w1 = (Return tt, w1) /\
    save path (set_sys_modules sm' w1) = save path (set_sys_modules sm' w).
Proof.
  intros Hs Ht Hs'.
  set (prefix := join_prefix (resolve w path)).
  set (F := write_entries (sys_modules w) prefix expected (with_directory w path)).
  destruct (written_target w path Hs Ht) as [HwdF HnodirF]. fold prefix F in HwdF, HnodirF.
  assert (HdirF : F !! resolve w path = Some Dir) by (by apply written_directory).
  assert (Hagain : forall sm0,
            Forall (fun e => exists c, entry_content sm0 e = Return c) expected ->
            save path (set_sys_modules sm0 (set_fs F w))
            = (Return tt,
               set_fs (write_entries sm0 prefix expected (with_directory w path))
                 (set_sys_modules sm0 (set_fs F w)))).
  { intros sm0 Hc. rewrite save_eq.
    change (resolve (set_sys_modules sm0 (set_fs F w)) path) with (resolve w path).
    change (sys_modules (set_sys_modules sm0 (set_fs F w))) with sm0.
    change (with_directory (set_sys_modules sm0 (set_fs F w)) path)
      with (with_directory (set_fs F w) path).
    rewrite HwdF. fold prefix.
    unfold prefix. rewrite save_entries_ok;
      [|apply resolve_nonempty|done|apply expected_files|done|done].
    fold prefix. f_equal. f_equal. unfold F, write_entries.
    apply insert_all_overwrite; [apply expected_keys_NoDup|].
    eapply Forall_impl; [exact Hc|]. intros e [c ->]. by eexists. }
  exists (set_fs F w). split; [by apply save_ok|]. split.
  - pose proof (Hagain (sys_modules w) (session_contents w Hs)) as H.
    destruct w as [sm f c o g]. exact H.
  - rewrite (Hagain sm' (session_contents _ Hs')).
    rewrite (save_ok (set_sys_modules sm' w) path Hs').
    + reflexivity.
    + exact Ht.
Qed.

Lemma later_session_state :
  session_state
    (set_sys_modules (sys_modules (session_with VNone)) sample_session).
Proof.
  split; repeat constructor; do 2 eexists; (split; [reflexivity|]);
    vm_compute; reflexivity.
Qed.

Lemma save_overwrites_witness :
  exists w1,
    save "ckpt" sample_session = (Return tt, w1) /\
    save "ckpt" w1 = (Return tt, w1) /\
    save "ckpt" (set_sys_modules (sys_modules (session_with VNone)) w1)
    = save "ckpt"
        (set_sys_modules (sys_modules (session_with VNone)) sample_session).
Proof.
  apply (save_overwrites sample_session "ckpt"
           (sys_modules (session_with VNone))).
  - exact sample_session_state.
  - exact (sample_target_ready an_inversion).
  - exact later_session_state.
Defined.

(** The entries before an entry of [expected] have other files. *)
Lemma expected_split_keys prefix done e rest :
  expected = (done ++ e :: rest)%list ->
  NoDup (map (fun d => prefix +:+ entry_file d) done) /\
  prefix +:+ entry_file e ∉ map (fun d => prefix +:+ entry_file d) done.
Proof.
  intros Hsplit. pose proof (expected_keys_NoDup prefix) as Hnd.
  rewrite Hsplit, map_app in Hnd. apply NoDup_app in Hnd as (Hnd1 & Hdisj & _).
  split; [done|]. intros Hin. apply (Hdisj _ Hin). apply list_elem_of_here.
Qed.

(** Where [save] stops when the content of a file cannot be produced, and
    what it leaves. *)
Lemma save_fails_at
    (w : World) (path : string) (done rest : list entry) (e : entry)
    (ex : exn) :
  target_ready w path ->
  expected = (done ++ e :: rest)%list ->
  Forall (fun d => exists c, entry_content (sys_modules w) d = Return c) done ->
  entry_content (sys_modules w) e = Raise ex ->
  save path w
  = (Raise ex,
     set_fs (<[entry_key w path (entry_file e) := File Empty]>
               (write_entries (sys_modules w) (join_prefix (resolve w path))
                  done (with_directory w path))) w).
Proof.
  intros Ht Hsplit Hdone He. unfold entry_key.
  set (dir := resolve w path). set (prefix := join_prefix dir).
  set (D := with_directory w path).
  set (key := fun d : entry => prefix +:+ entry_file d).
  set (F1 := write_entries (sys_modules w) prefix done D).
  destruct (expected_split_keys prefix done e rest Hsplit) as [Hnd1 Hfresh].
  pose proof expected_files as Hfiles.
  pose proof (with_directory_files w path Ht) as Hnodir.
  rewrite Hsplit in Hfiles, Hnodir.
  apply Forall_app in Hfiles as [Hfiles1 Hfiles2].
  apply Forall_cons in Hfiles2 as [[Hslash Hne] _].
  apply Forall_app in Hnodir as [Hnodir1 Hnodir2].
  apply Forall_cons in Hnodir2 as [Hnodir_e _].
  assert (Hdir : dir <> EmptyString) by apply resolve_nonempty.
  assert (HD : D !! dir = Some Dir) by (by apply with_directory_dir).
  assert (Hout : forall k, k ∉ map key done -> F1 !! k = D !! k).
  { intros k Hk. unfold F1, write_entries. by rewrite insert_all_lookup_out. }
  assert (HF1dir : F1 !! dir = Some Dir).
  { rewrite Hout; [done|]. intros Hin.
    apply list_elem_of_fmap in Hin as (d & Hd & Hin).
    destruct (proj1 (Forall_forall _ _) Hfiles1 d Hin) as [_ Hn].
    symmetry in Hd. by apply entry_not_dir_key in Hd. }
  rewrite save_eq, Hsplit. fold dir prefix D.
  rewrite save_entries_app.
  unfold prefix. rewrite save_entries_ok by done. fold prefix F1.
  assert (Hparent : parent_is_dir F1 (key e) = true)
    by exact (parent_of_entry F1 dir (entry_file e) Hdir HF1dir Hslash).
  assert (HF1e : F1 !! key e <> Some Dir) by (by rewrite Hout).
  cbn [save_entries]. fold (key e). rewrite He, Hparent.
  by destruct (F1 !! key e) as [[|c0]|].
Qed.



(** [load] registers the entries of the files it can read, up to the first
    one it cannot, whatever [sys.modules] holds. *)
Lemma load_entries_prefix f g prefix es :
  exists done rest r,
    es = (done ++ rest)%list /\
    Forall (fun e => exists v, read_entry f g prefix e = Return v) done /\
    forall sm,
      load_entries f g prefix es sm = (r, register_entries f g prefix done sm).
Proof.
  induction es as [|e es (done & rest & r & -> & Hdone & Hall)].
  - exists [], [], (Return tt). repeat split; constructor.
  - destruct (read_entry f g prefix e) as [v|ex] eqn:He.
    + exists (e :: done), rest, r. split; [done|]. split; [constructor; eauto|].
      intros sm. cbn [load_entries app]. rewrite He, Hall.
      unfold register_entries. rewrite insert_all_cons. by rewrite He.
    + exists [], (e :: done ++ rest)%list, (Raise ex).
      split; [done|]. split; [constructor|].
      intros sm. cbn [load_entries]. by rewrite He.
Qed.

(** X9. When every expected file can be read, [load] succeeds: each of the
    two configuration mappings and of the six roles is registered with
    what its file holds, replacing what was registered under that name,
    and every other entry of [sys.modules] is left as it was. *)
Theorem load_registers_checkpoint (w : World) (path : string) :
  Forall (fun e => exists v, read_from w path e = Return v) expected ->
  exists w',
    load path w = (Return tt, w') /\
    Forall (fun e => exists v,
              read_from w path e = Return v /\
              sys_modules w' !! entry_module e = Some v) expected /\
    (forall k, k ∉ map entry_module expected ->
       sys_modules w' !! k = sys_modules w !! k).
Proof.
  intros Hread. unfold read_from in *.
  exists (set_sys_modules
            (register_entries (fs w) (globals w) (join_prefix (resolve w path))
               expected (sys_modules w)) w).
  split; [rewrite load_eq; by rewrite load_entries_ok|].
  cbn [sys_modules set_sys_modules]. split.
  - apply Forall_forall. intros e He.
    destruct (proj1 (Forall_forall _ _) Hread e He) as [v Hv].
    exists v. split; [done|].
    apply (insert_all_lookup_in entry_module); [|done..].
    apply expected_modules_NoDup.
  - intros k Hk. by apply (insert_all_lookup_out entry_module).
Qed.

Lemma load_registers_checkpoint_witness :
  exists w',
    load "ckpt" (save "ckpt" sample_session).2 = (Return tt, w') /\
    sys_modules w' !! "seisflows_workflow" = Some an_inversion.
Proof.
  assert (Hread : Forall (fun e => exists v,
              read_from (save "ckpt" sample_session).2 "ckpt" e = Return v)
            expected).
  { repeat constructor; eexists; vm_compute; reflexivity. }
  destruct (load_registers_checkpoint (save "ckpt" sample_session).2 "ckpt" Hread)
    as (w' & Hload & Hall & _).
  exists w'. split; [exact Hload|].
  destruct (proj1 (Forall_forall _ _) Hall (Role "workflow")) as (v & Hv & Hreg).
  - apply role_in_expected. apply (bool_decide_unpack _). vm_compute. exact I.
  - vm_compute in Hv. injection Hv as <-. exact Hreg.
Defined.

(** X10. Loading twice is loading once: a second [load] of the same path
    returns or raises as the first did and leaves the process as the first
    left it. *)
Theorem load_twice (path : string) (w : World) :
  load path (load path w).2 = load path w.
Proof.
  rewrite (load_eq path w).
  destruct (load_entries_prefix (fs w) (globals w)
              (join_prefix (resolve w path)) expected)
    as (done & rest & r & Hsplit & Hdone & Hall).
  rewrite Hall. cbn [snd]. rewrite load_eq.
  cbn [fs globals sys_modules set_sys_modules].
  change (resolve (set_sys_modules _ w) path) with (resolve w path).
  rewrite Hall. f_equal.
  unfold register_entries. rewrite insert_all_overwrite; [done| |done].
  pose proof expected_modules_NoDup as Hnd. rewrite Hsplit, map_app in Hnd.
  by apply NoDup_app in Hnd as [? _].
Qed.

(** X11. Flushing the session first makes no difference to a [load] that
    succeeds: [flush] followed by [load] leaves the process as [load]
    alone leaves it. *)
Theorem flush_then_load (w : World) (path : string) :
  Forall (fun e => exists v, read_from w path e = Return v) expected ->
  exists w1, flush w = (Return tt, w1) /\ load path w1 = load path w.
Proof.
  intros Hread. unfold read_from in Hread.
  eexists. split; [apply flush_eq|].
  rewrite !load_eq. cbn [fs globals sys_modules set_sys_modules].
  change (resolve (set_sys_modules _ w) path) with (resolve w path).
  rewrite !load_entries_ok by done.
  unfold set_sys_modules. cbn [sys_modules fs cwd stdout globals].
  f_equal. f_equal. apply map_eq. intros k.
  destruct (decide (k ∈ map entry_module expected)) as [Hin|Hout].
  - apply list_elem_of_fmap in Hin as (e & -> & He).
    destruct (proj1 (Forall_forall _ _) Hread e He) as [v Hv].
    unfold register_entries.
    by rewrite !(insert_all_lookup_in entry_module _ expected _ e v
                   expected_modules_NoDup He Hv).
  - unfold register_entries. rewrite !insert_all_lookup_out by done.
    rewrite without_roles_lookup. case_bool_decide as Hrole; [|done].
    exfalso. apply Hout. unfold expected. rewrite map_app.
    apply elem_of_app. right. by rewrite map_map.
Qed.

Lemma flush_then_load_witness :
  exists w1,
    flush (save "ckpt" sample_session).2 = (Return tt, w1) /\
    load "ckpt" w1 = load "ckpt" (save "ckpt" sample_session).2.
Proof.
  apply (flush_then_load (save "ckpt" sample_session).2 "ckpt").
  repeat constructor; eexists; vm_compute; reflexivity.
Defined.

(** ** Saving and loading back, once more *)

Lemma picklable_sample_roles :
  Forall (fun name => exists v,
            sys_modules sample_session !! role_key name = Some v /\
            picklable (globals sample_session) v) NAMES.
Proof.
  repeat constructor; eexists; (split; [reflexivity|]);
    repeat first [ apply pk_none | apply pk_int
                 | apply pk_instance; [reflexivity|] | constructor ].
Qed.


(** What a written checkpoint gives back, file by file. *)
Lemma written_readable w path :
  session_state w -> target_ready w path ->
  Forall (fun name => exists v,
            sys_modules w !! role_key name = Some v /\
            picklable (globals w) v) NAMES ->
  Forall (fun e => exists v,
            read_entry
              (write_entries (sys_modules w) (join_prefix (resolve w path))
                 expected (with_directory w path))
              (globals w) (join_prefix (resolve w path)) e = Return v)
    expected.
Proof.
  intros Hs Ht Hpk. unfold expected. apply Forall_app. split.
  - change [Config "seisflows_parameters"; Config "seisflows_paths"]
      with (Config <$> ["seisflows_parameters"; "seisflows_paths"]).
    rewrite Forall_fmap. apply Forall_forall. intros name Hname. simpl.
    destruct (read_back_config w path (with_directory w path) name Hs Hname)
      as (d & d' & _ & Hr).
    by eexists.
  - rewrite Forall_fmap. apply Forall_forall. intros name Hname. simpl.
    destruct (proj1 (Forall_forall _ _) Hpk name Hname) as (v & Hv & Hp).
    exists v. by apply read_back_role.
Qed.

Lemma json_plain_list l : json_plain (VList l) -> Forall json_plain l.
Proof. by inversion 1. Qed.

(** [json.load] gives back the scalars and lists [json.dump] wrote. *)
Lemma json_plain_roundtrip sk v :
  json_plain v -> exists j, to_json sk v = Return j /\ of_json j = v.
Proof.
  induction v as [|b|z|s|l IH| | | | |] using pyval_ind';
    intros Hp; try (by inversion Hp).
  - by exists JNull.
  - by exists (JBool b).
  - by exists (JInt z).
  - by exists (JStr s).
  - apply json_plain_list in Hp.
    assert (Hl : exists js, map_outcome (to_json sk) l = Return js /\
                            map of_json js = l).
    { induction l as [|x l IHl]; [by exists []|].
      apply Forall_cons in IH as [IHx IHrest].
      apply Forall_cons in Hp as [Hx Hrest].
      destruct (IHx Hx) as (j & Hj & Hback).
      destruct (IHl IHrest Hrest) as (js & Hjs & Hbacks).
      exists (j :: js). rewrite map_outcome_cons, Hj, Hjs.
      split; [done|]. simpl. by rewrite Hback, Hbacks. }
    destruct Hl as (js & Hjs & Hback).
    exists (JArr js). rewrite to_json_list, Hjs. split; [done|].
    simpl. by rewrite Hback.
Qed.

Lemma json_items_roundtrip sk (d : list (string * pyval)) :
  Forall (fun kv => json_plain kv.2) d ->
  exists ms,
    map_outcome (fun kv => obind (to_json sk kv.2)
                             (fun j => Return (kv.1, j))) d = Return ms /\
    map (fun kv => (kv.1, of_json kv.2)) ms = d.
Proof.
  induction 1 as [|[k v] d Hv _ (ms & Hms & Hback)]; [by exists []|].
  destruct (json_plain_roundtrip sk v Hv) as (j & Hj & Hvj).
  exists ((k, j) :: ms). rewrite map_outcome_cons. simpl. rewrite Hj. simpl.
  rewrite Hms. split; [done|]. simpl. by rewrite Hvj, Hback.
Qed.

Lemma Sorted_member_le_map {A B} (g : string * A -> string * B) l :
  (forall kv, (g kv).1 = kv.1) ->
  Sorted member_le l -> Sorted member_le (map g l).
Proof.
  intros Hg. induction 1 as [|x l _ IH Hhd]; [constructor|].
  simpl. constructor; [exact IH|].
  destruct Hhd as [|y l Hxy]; constructor.
  unfold member_le in *. by rewrite !Hg.
Qed.

(** A dict looks the same under every key when its items are put in
    another order. *)
Lemma assoc_Permutation {A} (d d' : list (string * A)) k :
  NoDup d.*1 -> d ≡ₚ d' -> assoc k d = assoc k d'.
Proof.
  intros Hnd Hperm. induction Hperm as [|[k0 x] l l' _ IH|[k1 x] [k2 y] l|l l' l'' H1 IH1 H2 IH2].
  - done.
  - simpl. apply NoDup_cons in Hnd as [_ Hnd]. by rewrite IH.
  - simpl. destruct (String.eqb k k2) eqn:E2, (String.eqb k k1) eqn:E1; try done.
    apply String.eqb_eq in E1, E2. subst.
    apply NoDup_cons in Hnd as [Hnd _]. simpl in Hnd.
    exfalso. apply Hnd. apply list_elem_of_here.
  - rewrite IH1 by done. apply IH2. by rewrite <- H1.
Qed.

(** The encoding of a mapping of scalars and lists, read back. *)
Lemma json_dict_roundtrip (d : list (string * pyval)) :
  Forall (fun kv => json_plain kv.2) d ->
  exists doc d',
    to_json true (VDict d) = Return doc /\
    Dict (of_json doc) = Return (VDict d') /\
    d' ≡ₚ d /\ Sorted member_le d'.
Proof.
  intros Hd. destruct (json_items_roundtrip true d Hd) as (ms & Hms & Hback).
  exists (JObj (merge_sort member_le ms)),
         (map (fun kv => (kv.1, of_json kv.2)) (merge_sort member_le ms)).
  rewrite to_json_dict, Hms. split; [done|]. split; [done|]. split.
  - rewrite <- Hback. apply Permutation_map, merge_sort_Permutation.
  - apply Sorted_member_le_map; [done|]. apply Sorted_merge_sort, _.
Qed.

(** X13. A configuration mapping whose values are scalars and lists comes
    back from [save] and [load] with the same items: the mapping that is
    registered again has the items of the saved one in the order of their
    keys, and so the same value under every key. *)
Theorem config_roundtrip
    (w : World) (path name : string) (d : list (string * pyval)) :
  session_state w -> target_ready w path ->
  Forall (fun name => exists v,
            sys_modules w !! role_key name = Some v /\
            picklable (globals w) v) NAMES ->
  name ∈ ["seisflows_parameters"; "seisflows_paths"] ->
  sys_modules w !! name = Some (VDict d) ->
  Forall (fun kv => json_plain kv.2) d ->
  exists w1 w2 d',
    save path w = (Return tt, w1) /\
    load path w1 = (Return tt, w2) /\
    sys_modules w2 !! name = Some (VDict d') /\
    d' ≡ₚ d /\ Sorted member_le d' /\
    (NoDup d.*1 -> forall k, assoc k d' = assoc k d).
Proof.
  intros Hs Ht Hpk Hname Hd Hplain.
  set (prefix := join_prefix (resolve w path)).
  set (F := write_entries (sys_modules w) prefix expected (with_directory w path)).
  pose proof (written_readable w path Hs Ht Hpk) as Hread. fold prefix F in Hread.
  destruct (json_dict_roundtrip d Hplain) as (doc & d' & Hdoc & Hback & Hperm & Hsorted).
  exists (set_fs F w),
         (set_sys_modules
            (register_entries F (globals w) prefix expected (sys_modules w))
            (set_fs F w)), d'.
  split; [by apply save_ok|]. split.
  { rewrite load_eq. cbn [fs globals sys_modules set_fs].
    change (resolve (set_fs F w) path) with (resolve w path).
    fold prefix. by rewrite (load_entries_ok _ _ _ _ _ Hread). }
  cbn [sys_modules set_sys_modules]. split; [|split; [done|split; [done|]]].
  - apply (insert_all_lookup_in entry_module _ _ _ (Config name));
      [apply expected_modules_NoDup|by apply config_in_expected|].
    unfold read_entry, F.
    rewrite (checkpoint_lookup _ _ _ (Config name) (JsonText 4 doc)
               (config_in_expected name Hname)); [exact Hback|].
    unfold entry_content. cbn [entry_module]. by rewrite Hd, Hdoc.
  - intros Hnd k. symmetry. by apply assoc_Permutation.
Qed.

Lemma config_roundtrip_witness :
  exists w1 w2 d',
    save "ckpt" sample_session = (Return tt, w1) /\
    load "ckpt" w1 = (Return tt, w2) /\
    sys_modules w2 !! "seisflows_parameters" = Some (VDict d') /\
    d' ≡ₚ [("SOLVER", VStr "specfem2d"); ("NTASK", VInt 4)] /\
    Sorted member_le d' /\
    (NoDup [("SOLVER", VStr "specfem2d"); ("NTASK", VInt 4)].*1 ->
     forall k, assoc k d'
               = assoc k [("SOLVER", VStr "specfem2d"); ("NTASK", VInt 4)]).
Proof.
  apply (config_roundtrip sample_session "ckpt" "seisflows_parameters").
  - exact sample_session_state.
  - exact (sample_target_ready an_inversion).
  - exact picklable_sample_roles.
  - apply (bool_decide_unpack _). vm_compute. exact I.
  - reflexivity.
  - repeat constructor.
Defined.

(** ** More on the serialization adapter *)

Lemma unpickle_method_rebinds_witness :
  _unpickle_method "setup" an_inversion Inversion
  = Return (VMethod base_setup an_inversion) /\
  forall code args,
    obind (_unpickle_method "setup" an_inversion Inversion)
      (fun m => call code m args)
    = code (fn_code base_setup) an_inversion args.
Proof.
  apply (unpickle_method_rebinds "setup" an_inversion Inversion Base base_setup).
  - exists [Inversion], []. split; [reflexivity|].
    split; [repeat constructor|reflexivity].
  - discriminate.
Defined.

(** X15. The first class of the resolution order whose [__dict__] has the
    name decides, whatever it holds there: when that entry is not a
    function (a class constant under the name of a method), it has no
    [__get__] and [_unpickle_method] raises [AttributeError], also when a
    class further down the order defines a function of that name. *)
Theorem unpickle_method_not_a_function
    (func_name : string) (obj : pyval) (cls c : pyclass) (z : Z) :
  first_definer func_name cls c (AData z) ->
  _unpickle_method func_name obj cls = Raise AttributeError.
Proof.
  intros (pre & post & Hmro & Hpre & Hc).
  unfold _unpickle_method. rewrite Hmro.
  by rewrite (mro_loop_found _ pre c post cls (AData z) Hpre Hc).
Qed.

Lemma unpickle_method_not_a_function_witness :
  find_attr "main" (cls_ancestors Tuned) = Some (AFunction wrapper) /\
  _unpickle_method "main" (VInstance Tuned []) Tuned = Raise AttributeError.
Proof.
  split; [reflexivity|].
  apply (unpickle_method_not_a_function "main" (VInstance Tuned []) Tuned Tuned 0).
  exists [], [Inversion; Base]. split; [reflexivity|].
  split; [constructor|reflexivity].
Defined.

Lemma loads_encoded_method_witness :
  loads sample_globals
    (PReduce unpickle_method_name
       [PStr "setup"; PObject "Inversion" [("iteration", PInt 3)];
        PGlobal "Inversion"])
  = Return (VMethod base_setup an_inversion).
Proof.
  apply (loads_encoded_method sample_globals "setup"
           (PObject "Inversion" [("iteration", PInt 3)]) "Inversion"
           an_inversion Inversion Base base_setup).
  - reflexivity.
  - discriminate.
  - reflexivity.
  - exists [Inversion], []. split; [reflexivity|].
    split; [repeat constructor|reflexivity].
Defined.

(** ** Relative and absolute checkpoint paths *)

Lemma with_directory_absolute w path :
  with_directory w (resolve w path) = with_directory w path.
Proof.
  unfold with_directory. by rewrite (resolve_absolute w _ (resolve_starts w path)).
Qed.

(** X17. A relative path denotes the checkpoint under the working
    directory: [save] and [load] of a path do what [save] and [load] of
    its absolute form do. *)
Theorem checkpoint_path_absolute (path : string) (w : World) :
  save path w = save (resolve w path) w /\
  load path w = load (resolve w path) w.
Proof.
  rewrite !save_eq, !load_eq, with_directory_absolute.
  by rewrite (resolve_absolute w _ (resolve_starts w path)).
Qed.

(** ** Configuring the logger *)

Section ConfigLoggerFacts.

Import Logging.

Lemma list_remove_head (h : Handler) (l : list Handler) :
  list_remove h (h :: l) = l.
Proof. simpl. by rewrite decide_True. Qed.

(** The loop of [config_logger] ends with no handler left, and touches
    nothing else of the logger. *)
Lemma remove_handlers_all (logger : Logger) :
  remove_handlers (length (handlers logger)) logger
  = mkLogger (level logger) [] (ancestors_have_handlers logger).
Proof.
  destruct logger as [lv hs anc]. cbn [handlers level ancestors_have_handlers].
  induction hs as [|h hs IH]; [done|].
  cbn [length remove_handlers]. unfold hasHandlers. cbn [handlers].
  rewrite bool_decide_eq_false_2 by done. cbn [andb negb].
  unfold removeHandler. cbn [handlers level ancestors_have_handlers].
  rewrite bool_decide_eq_true_2 by apply list_elem_of_here.
  rewrite list_remove_head. exact IH.
Qed.

End ConfigLoggerFacts.

(** X18. Whatever handlers the logger had before, after [config_logger]
    with a known level name it has exactly the handlers of this call: one
    for [sys.stdout], and after it one for the log file when a file name
    is given (and the file opens), both with the formatter chosen by
    [verbose]. Running it again and again never duplicates a handler. *)
Theorem config_logger_replaces_handlers
    (open_log : string -> string -> M unit)
    (level : string) (filename : option string) (filemode : string)
    (verbose : bool) (logger : Logging.Logger) (w w' : World) (n : Z) :
  Logging.name_to_level level = Some n ->
  match filename with
  | Some f => open_log f filemode w = (Return tt, w')
  | None => w' = w
  end ->
  config_logger open_log level filename filemode verbose logger w
  = (None,
     Logging.mkLogger n
       (Logging.mkHandler (Logging.ToStream "sys.stdout")
          (Some (log_formatter verbose)) ::
        match filename with
        | Some f =>
            [Logging.mkHandler (Logging.ToFile f filemode)
               (Some (log_formatter verbose))]
        | None => []
        end)
       (Logging.ancestors_have_handlers logger),
     w').
Proof.
  intros Hlevel Hopen. unfold config_logger.
  rewrite remove_handlers_all. unfold Logging.setLevel. rewrite Hlevel.
  destruct filename as [f|].
  - unfold FileHandler, bind. rewrite Hopen. reflexivity.
  - by subst w'.
Qed.

Lemma config_logger_replaces_handlers_witness :
  config_logger (fun _ _ => ret tt) "INFO" (Some "sfoutput.txt") "a" false
    (Logging.mkLogger 0
       [Logging.StreamHandler "sys.stdout"; Logging.StreamHandler "sys.stderr"]
       false) empty_world
  = (None,
     Logging.mkLogger 20
       [Logging.mkHandler (Logging.ToStream "sys.stdout")
          (Some (log_formatter false));
        Logging.mkHandler (Logging.ToFile "sfoutput.txt" "a")
          (Some (log_formatter false))]
       false,
     empty_world).
Proof.
  apply (config_logger_replaces_handlers (fun _ _ => ret tt) "INFO"
           (Some "sfoutput.txt") "a" false
           (Logging.mkLogger 0
              [Logging.StreamHandler "sys.stdout";
               Logging.StreamHandler "sys.stderr"] false)
           empty_world empty_world 20).
  - reflexivity.
  - reflexivity.
Defined.

(** X19. A level name that [logging] does not know makes [setLevel] raise
    [ValueError] after the old handlers have been removed and before any
    new one is added: the logger is left with no handler at all and its
    old level, and no log file has been opened. *)
Theorem config_logger_unknown_level
    (open_log : string -> string -> M unit)
    (level : string) (filename : option string) (filemode : string)
    (verbose : bool) (logger : Logging.Logger) (w : World) :
  Logging.name_to_level level = None ->
  config_logger open_log level filename filemode verbose logger w
  = (Some Logging.ValueError,
     Logging.mkLogger (Logging.level logger) []
       (Logging.ancestors_have_handlers logger),
     w).
Proof.
  intros Hlevel. unfold config_logger.
  rewrite remove_handlers_all. unfold Logging.setLevel. by rewrite Hlevel.
Qed.

Lemma config_logger_unknown_level_witness :
  config_logger (fun _ _ => ret tt) "debug" None "a" true
    (Logging.mkLogger 10
       [Logging.mkHandler (Logging.ToStream "sys.stdout") None] false)
    empty_world
  = (Some Logging.ValueError, Logging.mkLogger 10 [] false, empty_world).
Proof.
  apply (config_logger_unknown_level (fun _ _ => ret tt) "debug" None "a" true
           (Logging.mkLogger 10
              [Logging.mkHandler (Logging.ToStream "sys.stdout") None] false)
           empty_world).
  reflexivity.
Defined.

(** ** Fortran binary files *)

Section FortranBinaryFacts.

Import FortranBinary.

Lemma drop_last_length s : (String.length (drop_last s) <= String.length s)%nat.
Proof.
  induction s as [|c s IH]; [done|]. destruct s as [|c' s]; [simpl; lia|].
  change (drop_last (String c (String c' s)))
    with (String c (drop_last (String c' s))).
  simpl in *. lia.
Qed.

Lemma int32_small z : (0 <= z < 2 ^ 31)%Z -> int32 z = z.
Proof. intros Hz. unfold int32. rewrite Z.mod_small; lia. Qed.

Lemma locate_written d key f p :
  locate (mkDisk (<[key := f]> (nodes d)) (dcwd d)) p = locate d p.
Proof. reflexivity. Qed.

Lemma open_wb_key filename d key :
  open_wb filename d = Ok key -> key = locate d filename.
Proof.
  unfold open_wb.
  destruct (nodes d !! locate d filename) as [[|f]|];
    try destruct (parent_is_dir _ _); congruence.
Qed.

Lemma write_Ok v filename d d' :
  _write v filename d = (Ok tt, d') ->
  open_wb filename d = Ok (locate d filename) /\
  d' = mkDisk (<[locate d filename :=
                   BFile (mkFile ([int32 (4 * Z.of_nat (length v))] ++ v ++
                                  [int32 (4 * Z.of_nat (length v))]) [])]>
                 (nodes d)) (dcwd d).
Proof.
  unfold _write. destruct (open_wb filename d) as [key|e] eqn:Hopen; [|done].
  pose proof (open_wb_key _ _ _ Hopen) as ->. by intros [= <-].
Qed.

(** Reading a file that holds one record gives the values of the record. *)
Lemma read_record (v : list Z) (filename : string) (d : Disk) :
  (4 * Z.of_nat (length v) < 2 ^ 31)%Z ->
  nodes d !! locate d filename = Some (BFile (fortran_record v)) ->
  _read filename d = Ok v.
Proof.
  intros Hlen Hfile. unfold _read. rewrite Hfile. unfold fortran_record.
  rewrite int32_small by lia.
  unfold getsize. cbn [items trailing take app length].
  rewrite length_app. cbn [length].
  rewrite (proj2 (Z.eqb_eq _ _)) by lia.
  cbn [drop]. rewrite !drop_0, length_app. cbn [length].
  replace (length v + 1 - 1)%nat with (length v) by lia.
  by rewrite take_app_length.
Qed.

(** X20. What [_write] writes, [_read] reads back: for an array of
    [float32] whose record length fits an [int32], reading the file that
    [_write] has just written returns the array, without the two record
    markers around it. This includes the empty array. *)
Theorem write_then_read (v : list Z) (filename : string) (d d' : Disk) :
  (4 * Z.of_nat (length v) < 2 ^ 31)%Z ->
  _write v filename d = (Ok tt, d') ->
  _read filename d' = Ok v.
Proof.
  intros Hlen Hw. apply write_Ok in Hw as [_ ->].
  apply read_record; [done|].
  rewrite locate_written. cbn [nodes]. apply lookup_insert_eq.
Qed.

Lemma write_then_read_witness :
  _read "model/proc000000_vp.bin"
    (_write [7; 8; 9]%Z "model/proc000000_vp.bin"
       (mkDisk {["/run/model" := BDir]} ["run"])).2
  = Ok [7; 8; 9]%Z /\
  _read "empty.bin" (_write [] "empty.bin" (mkDisk {["/run" := BDir]} ["run"])).2
  = Ok [].
Proof.
  split.
  - apply (write_then_read [7; 8; 9]%Z "model/proc000000_vp.bin"
             (mkDisk {["/run/model" := BDir]} ["run"])).
    + vm_compute. reflexivity.
    + vm_compute. reflexivity.
  - apply (write_then_read [] "empty.bin" (mkDisk {["/run" := BDir]} ["run"])).
    + vm_compute. reflexivity.
    + vm_compute. reflexivity.
Defined.

(** Writing the same array to the same file once more changes nothing. *)
Lemma write_again v filename a n d d' :
  locate d filename = a +:+ n ->
  ends_with_slash a = true -> has_slash n = false -> n <> EmptyString ->
  _write v filename d = (Ok tt, d') ->
  _write v filename d' = (Ok tt, d').
Proof.
  intros Hkey Ha Hn Hne Hw. apply write_Ok in Hw as [Hopen ->].
  set (key := locate d filename) in *.
  set (f := BFile _).
  assert (Hlen : String.length key = (String.length a + String.length n)%nat)
    by (by rewrite Hkey, append_length).
  assert (Hn0 : String.length n <> 0%nat) by (by destruct n).
  assert (Ha_key : a <> key).
  { intros E. apply (f_equal String.length) in E. lia. }
  assert (Hd_key : drop_last a <> key).
  { intros E. apply (f_equal String.length) in E.
    pose proof (drop_last_length a). lia. }
  assert (Hparent : parent_is_dir (skeleton d) key = true).
  { unfold open_wb in Hopen. fold key in Hopen.
    destruct (nodes d !! key) as [[|f0]|]; [done| |];
      by destruct (parent_is_dir (skeleton d) key). }
  unfold _write, open_wb. rewrite locate_written. fold key. cbn [nodes].
  rewrite lookup_insert_eq.
  assert (Hparent' : parent_is_dir
            (skeleton (mkDisk (<[key := f]> (nodes d)) (dcwd d))) key = true).
  { unfold skeleton. cbn [nodes]. rewrite fmap_insert.
    unfold parent_is_dir in *. rewrite Hkey in *.
    rewrite rsplit_slash_app in * by done.
    rewrite !lookup_insert_ne by congruence. exact Hparent. }
  unfold f at 1. rewrite Hparent'. cbn [nodes dcwd].
  by rewrite insert_insert_eq.
Qed.

Lemma locate_literal d :
  locate d literal_name
  = (join_prefix (getcwd (mkWorld ∅ ∅ (dcwd d) [] ∅)) +:+ "{path}/")
    +:+ "proc{iproc:06d}_{key}.bin".
Proof.
  unfold locate, resolve. change (PyStr.starts_with_slash literal_name) with false.
  cbv iota. rewrite os_path_join_relative by done.
  by rewrite append_assoc.
Qed.

Lemma write_slice_rest data path parameters iproc d :
  _write data literal_name d = (Ok tt, d) ->
  write_slice data path parameters iproc d = (Ok tt, d).
Proof.
  intros Hw. induction parameters as [|key rest IH]; [done|].
  cbn [write_slice]. fold literal_name. by rewrite Hw.
Qed.

(** X21. [write_slice] builds its file name from a plain string where
    [read_slice] uses an f-string, so the name never depends on the
    arguments: for any path, processor number and non-empty list of
    parameters it does what one [_write] of the whole of [data] to the
    file named [{path}/proc{iproc:06d}_{key}.bin], braces included, does. *)
Theorem write_slice_single_file
    (data : list Z) (path : string) (parameters : list string) (iproc : Z)
    (d : Disk) :
  parameters <> [] ->
  write_slice data path parameters iproc d
  = _write data "{path}/proc{iproc:06d}_{key}.bin" d.
Proof.
  destruct parameters as [|key rest]; [done|]. intros _.
  cbn [write_slice]. fold literal_name.
  destruct (_write data literal_name d) as [[[]|e] d'] eqn:Hw; [|done].
  apply write_slice_rest.
  apply (write_again data literal_name _ _ d d' (locate_literal d));
    [|done|done|exact Hw].
  by apply ends_with_slash_app.
Qed.

Lemma write_slice_single_file_witness :
  write_slice [7; 8]%Z "model" ["vp"; "vs"] 3
    (mkDisk {["/run/model" := BDir]} ["run"])
  = _write [7; 8]%Z "{path}/proc{iproc:06d}_{key}.bin"
      (mkDisk {["/run/model" := BDir]} ["run"]) /\
  write_slice [7; 8]%Z "model" ["vp"; "vs"] 3
    (mkDisk {["/run/model" := BDir]} ["run"])
  = (Err (OSError FileNotFoundError), mkDisk {["/run/model" := BDir]} ["run"]).
Proof.
  split.
  - apply (write_slice_single_file [7; 8]%Z "model" ["vp"; "vs"] 3
             (mkDisk {["/run/model" := BDir]} ["run"])).
    discriminate.
  - vm_compute. reflexivity.
Defined.

(** X22. After a [copy_slice] that succeeds, the slice under [dst] reads
    as the slice under [src] did, and the slice under [src] still reads
    the same. *)
Theorem copy_slice_copies
    (src dst : string) (iproc : Z) (parameter : string) (d d' : Disk) :
  copy_slice src dst iproc parameter d = (Ok tt, d') ->
  _read (os_path_join dst (slice_name iproc parameter)) d'
  = _read (os_path_join src (slice_name iproc parameter)) d /\
  _read (os_path_join src (slice_name iproc parameter)) d'
  = _read (os_path_join src (slice_name iproc parameter)) d.
Proof.
  unfold copy_slice, copyfile.
  set (fsrc := os_path_join src _). set (fdst := os_path_join dst _).
  destruct (nodes d !! locate d fsrc) as [[|f]|] eqn:Hsrc.
  - by destruct (_ && _).
  - destruct (bool_decide (locate d fsrc = locate d fdst)) eqn:Hsame.
    { rewrite bool_decide_eq_true_2 by eauto. done. }
    apply bool_decide_eq_false in Hsame. cbn [andb].
    destruct (open_wb fdst d) as [key|e] eqn:Hopen; [|done].
    pose proof (open_wb_key _ _ _ Hopen) as ->. intros [= <-].
    unfold _read. rewrite !locate_written. cbn [nodes].
    rewrite lookup_insert_eq, lookup_insert_ne by done.
    by rewrite Hsrc.
  - by destruct (_ && _).
Qed.

Lemma copy_slice_copies_witness :
  _read "/b/proc000001_vs.bin" (copy_slice "/a" "/b" 1 "vs" sample_disk).2
  = _read "/a/proc000001_vs.bin" sample_disk /\
  _read "/b/proc000001_vs.bin" (copy_slice "/a" "/b" 1 "vs" sample_disk).2
  = Ok [5; 6]%Z.
Proof.
  split.
  - apply (copy_slice_copies "/a" "/b" 1 "vs" sample_disk).
    vm_compute. reflexivity.
  - vm_compute. reflexivity.
Defined.

(** X27. [read_slice] decodes one Fortran record per parameter: when
    the file [{path}/proc{iproc:06d}_{key}.bin] of each parameter holds
    the record of an array, [read_slice] returns these arrays in the order
    of the parameters, each without its two markers. *)
Theorem read_slice_reads_records
    (path : string) (parameters : list string) (iproc : Z) (d : Disk)
    (vals : list (list Z)) :
  Forall2 (fun (key : string) (v : list Z) =>
             (4 * Z.of_nat (length v) < 2 ^ 31)%Z /\
             nodes d !! locate d (path +:+ "/" +:+ slice_name iproc key)
             = Some (BFile (fortran_record v)))
    parameters vals ->
  read_slice path parameters iproc d = Ok vals.
Proof.
  induction 1 as [|key v parameters vals [Hlen Hfile] _ IH]; [done|].
  cbn [read_slice]. rewrite (read_record v _ d Hlen Hfile). by rewrite IH.
Qed.

Lemma read_slice_reads_records_witness :
  read_slice "/a" ["vs"] 1 sample_disk = Ok [[5; 6]%Z].
Proof.
  apply (read_slice_reads_records "/a" ["vs"] 1 sample_disk [[5; 6]%Z]).
  repeat constructor; vm_compute; reflexivity.
Defined.

End FortranBinaryFacts.

(** ** The task list of the noise inversion *)

Section NoiseInversionFacts.

Import NoiseInversion.

Lemma join_cons2 sep x y l :
  PyStr.join sep (x :: y :: l) = x +:+ sep +:+ PyStr.join sep (y :: l).
Proof. reflexivity. Qed.

(** Joining the pieces of a string with the separator gives the string. *)
Lemma join_split_commas s : PyStr.join "," (split_commas s) = s.
Proof.
  unfold split_commas. induction s as [|c s IH]; [done|].
  cbn [PyStr.split_on].
  pose proof (split_on_nonempty (fun c => Ascii.eqb c ",") s) as Hne.
  destruct (PyStr.split_on _ s) as [|w ws]; [done|].
  destruct (Ascii.eqb c ",") eqn:Hc.
  - apply Ascii.eqb_eq in Hc as ->. rewrite join_cons2, IH. reflexivity.
  - destruct ws as [|y l].
    + simpl in *. by rewrite IH.
    + rewrite join_cons2. rewrite join_cons2 in IH.
      rewrite append_cons. by rewrite IH.
Qed.

Lemma bool_decide_elem_cons (x y : string) l :
  bool_decide (x ∈ y :: l) = bool_decide (x = y) || bool_decide (x ∈ l).
Proof.
  destruct (decide (x = y)) as [->|Hne].
  - rewrite (bool_decide_eq_true_2 (y ∈ y :: l)) by apply list_elem_of_here.
    by rewrite (bool_decide_eq_true_2 (y = y)).
  - rewrite (bool_decide_eq_false_2 (x = y)) by done. cbn [orb].
    apply bool_decide_ext. rewrite elem_of_cons. intuition congruence.
Qed.

Lemma acceptable_cases x :
  bool_decide (x ∈ acceptable_kernels) = true -> x = "ZZ" \/ x = "TT" \/ x = "RR".
Proof.
  intros H. apply bool_decide_eq_true in H. unfold acceptable_kernels in H.
  rewrite !elem_of_cons in H. rewrite elem_of_nil in H. tauto.
Qed.

(** Among comma-separated kernels that are all acceptable, looking for a
    kernel as a substring finds it exactly when it is one of the pieces. *)
Lemma contains_kernel x ps :
  x ∈ acceptable_kernels ->
  issubset ps acceptable_kernels = true ->
  PyStr.contains x (PyStr.join "," ps) = bool_decide (x ∈ ps).
Proof.
  intros Hx Hps.
  assert (Hx' : x = "ZZ" \/ x = "TT" \/ x = "RR")
    by (by apply acceptable_cases, bool_decide_eq_true).
  induction ps as [|p ps IH].
  - destruct Hx' as [->|[->| ->]]; reflexivity.
  - cbn [issubset forallb] in Hps. apply andb_prop in Hps as [Hp Hps].
    apply acceptable_cases in Hp.
    rewrite bool_decide_elem_cons.
    destruct ps as [|q l].
    + destruct Hx' as [->|[->| ->]], Hp as [->|[->| ->]]; reflexivity.
    + rewrite join_cons2, <- (IH Hps).
      destruct Hx' as [->|[->| ->]], Hp as [->|[->| ->]]; reflexivity.
Qed.

(** For kernels that [check] accepts, a substring test on [self.kernels]
    is a membership test on its pieces. *)
Lemma checked_contains super_check self x :
  check super_check self = None ->
  x ∈ acceptable_kernels ->
  PyStr.contains x (kernels self) = bool_decide (x ∈ split_commas (kernels self)).
Proof.
  intros Hcheck Hx. unfold check in Hcheck.
  destruct super_check; [done|].
  destruct (negb (String.eqb _ "Noise")); [done|].
  destruct (issubset _ _) eqn:Hsub; [|done].
  rewrite <- (contains_kernel x _ Hx Hsub). by rewrite join_split_commas.
Qed.

End NoiseInversionFacts.

(** X23. For kernels that [check] accepts, the substring tests of
    [task_list] select what was asked for: the list starts with
    [generate_zz_kernels] exactly when ZZ is one of the comma-separated
    kernels, goes on with [generate_tt_rr_kernels] exactly when TT or RR
    is one of them, and ends with the five standard inversion tasks; at
    least one of the two kernel tasks is there. *)
Theorem checked_task_list
    (super_check : option exn) (self : NoiseInversion.Workflow) :
  NoiseInversion.check super_check self = None ->
  let requested :=
    NoiseInversion.split_commas (NoiseInversion.kernels self) in
  NoiseInversion.task_list self
  = ((if bool_decide ("ZZ" ∈ requested)
      then [NoiseInversion.generate_zz_kernels] else []) ++
     (if bool_decide ("TT" ∈ requested) || bool_decide ("RR" ∈ requested)
      then [NoiseInversion.generate_tt_rr_kernels] else []) ++
     NoiseInversion.standard_tasks)%list /\
  NoiseInversion.task_list self <> NoiseInversion.standard_tasks.
Proof.
  intros Hcheck requested.
  pose proof (checked_contains super_check self) as Hin.
  specialize (fun x => Hin x Hcheck). fold requested in Hin.
  unfold NoiseInversion.check in Hcheck.
  destruct super_check; [done|].
  destruct (negb (String.eqb _ "Noise")); [done|].
  destruct (NoiseInversion.issubset _ _) eqn:Hsub; [|done].
  fold requested in Hsub. clear Hcheck.
  unfold NoiseInversion.task_list.
  rewrite !Hin by (apply (bool_decide_unpack _); vm_compute; exact I).
  assert (Hsome : bool_decide ("ZZ" ∈ requested) ||
                  (bool_decide ("TT" ∈ requested) ||
                   bool_decide ("RR" ∈ requested)) = true).
  { pose proof (split_on_nonempty (fun c => Ascii.eqb c ",")
                  (NoiseInversion.kernels self)) as Hne.
    fold (NoiseInversion.split_commas (NoiseInversion.kernels self)) in Hne.
    fold requested in Hne.
    destruct requested as [|p ps]; [done|].
    cbn [NoiseInversion.issubset forallb] in Hsub.
    apply andb_prop in Hsub as [Hp _]. apply acceptable_cases in Hp.
    rewrite !bool_decide_elem_cons.
    destruct Hp as [->|[->| ->]]; cbn; by rewrite ?orb_true_r. }
  destruct (bool_decide ("ZZ" ∈ requested)),
           (bool_decide ("TT" ∈ requested)),
           (bool_decide ("RR" ∈ requested)); try done.
Qed.

Lemma checked_task_list_witness :
  NoiseInversion.task_list
    (NoiseInversion.__init__
       (NoiseInversion.mkWorkflow EmptyString None "Noise" "data"
          "/scratch/solver/001" "001" "/data") "zz,rr")
  = [NoiseInversion.generate_zz_kernels;
     NoiseInversion.generate_tt_rr_kernels;
     NoiseInversion.postprocess_event_kernels;
     NoiseInversion.evaluate_gradient_from_kernels;
     NoiseInversion.initialize_line_search;
     NoiseInversion.perform_line_search;
     NoiseInversion.finalize_iteration].
Proof.
  exact (proj1 (checked_task_list None
                  (NoiseInversion.__init__
                     (NoiseInversion.mkWorkflow EmptyString None "Noise" "data"
          "/scratch/solver/001" "001" "/data")
                     "zz,rr")
                  eq_refl)).
Defined.

(** X28. For a horizontal force (N or E) [prepare_data_for_solver] first
    removes what lies in the solver's [traces/obs/] and, when that
    succeeds, hands on a pattern whose directory class always admits T:
    for checked kernels it is [[RT][RT]] when RR is requested and [[T][T]]
    otherwise, whether or not TT is requested (the test [if "TT":] always
    holds). So with RR alone the pattern also matches the TT data. *)
Theorem horizontal_data_always_admits_T
    (rm_glob super_prepare : string -> option exn) (super_check : option exn)
    (self : NoiseInversion.Workflow) (force : string) :
  NoiseInversion.check super_check self = None ->
  NoiseInversion._force self = Some force ->
  force = "N" \/ force = "E" ->
  rm_glob (NoiseInversion.obs_pattern self) = None ->
  NoiseInversion.prepare_data_for_solver rm_glob super_prepare self
  = ([NoiseInversion.unix_rm_glob (NoiseInversion.obs_pattern self);
      NoiseInversion.super_prepare_data_for_solver
        (NoiseInversion.horizontal_data_pattern self)],
     NoiseInversion.Inherited <$>
       super_prepare (NoiseInversion.horizontal_data_pattern self)).
Proof.
  intros Hcheck Hforce Hdir Hrm.
  unfold NoiseInversion.prepare_data_for_solver.
  fold (NoiseInversion.obs_pattern self). rewrite Hrm, Hforce.
  rewrite (checked_contains super_check self "RR" Hcheck)
    by (apply (bool_decide_unpack _); vm_compute; exact I).
  unfold NoiseInversion.horizontal_data_pattern.
  destruct Hdir as [-> | ->];
    destruct (bool_decide ("RR" ∈ _)); cbn [String.eqb Ascii.eqb]; reflexivity.
Qed.

Lemma horizontal_data_always_admits_T_witness :
  NoiseInversion.prepare_data_for_solver (fun _ => None) (fun _ => None)
    (NoiseInversion.mkWorkflow "RR" (Some "E") "Noise" "data"
       "/scratch/solver/001" "001" "/data")
  = ([NoiseInversion.unix_rm_glob "/scratch/solver/001/traces/obs/*";
      NoiseInversion.super_prepare_data_for_solver "/data/001/[RT][RT]/*"],
     None).
Proof.
  apply (horizontal_data_always_admits_T (fun _ => None) (fun _ => None) None
           (NoiseInversion.mkWorkflow "RR" (Some "E") "Noise" "data"
              "/scratch/solver/001" "001" "/data") "E").
  - reflexivity.
  - reflexivity.
  - right. reflexivity.
  - reflexivity.
Defined.

(** ** Checkpoints of sessions that are not complete *)

Lemma custom_import_no_parameters_witness :
  custom_import bare_package (Some "solver") None None empty_world
  = (Return Null, empty_world).
Proof.
  apply (custom_import_no_parameters bare_package "solver" None empty_world).
  - apply (bool_decide_unpack _). vm_compute. exact I.
  - reflexivity.
Defined.




(** X26. A flushed session cannot be checkpointed: after [flush], [save]
    writes the two configuration files and then raises [KeyError] at the
    first role, whose file it has already opened and leaves empty. *)
Theorem save_after_flush (w : World) (path : string) :
  session_state w -> target_ready w path ->
  exists w1 w2,
    flush w = (Return tt, w1) /\
    save path w1 = (Raise KeyError, w2) /\
    fs w2 !! entry_key w path "seisflows_system.p" = Some (File Empty).
Proof.
  intros Hs Ht.
  exists (set_sys_modules (without_roles (sys_modules w)) w).
  eexists. split; [apply flush_eq|].
  assert (Hcfg : Forall (fun d => exists c,
              entry_content (without_roles (sys_modules w)) d = Return c)
            [Config "seisflows_parameters"; Config "seisflows_paths"]).
  { change [Config "seisflows_parameters"; Config "seisflows_paths"]
      with (Config <$> ["seisflows_parameters"; "seisflows_paths"]).
    rewrite Forall_fmap. apply Forall_forall. intros name Hname. simpl.
    destruct (session_config w name Hs Hname) as (d & doc & Hd & Hdoc & Hc).
    exists (JsonText 4 doc). unfold entry_content in *. cbn [entry_module] in *.
    rewrite without_roles_lookup.
    rewrite bool_decide_eq_false_2; [exact Hc|].
    apply elem_of_cons in Hname as [->|Hname];
      [|apply elem_of_cons in Hname as [->|Hname];
        [|by apply elem_of_nil in Hname]];
      intros Hin; apply (bool_decide_pack _) in Hin; vm_compute in Hin;
      exact Hin. }
  assert (Hsys : entry_content (without_roles (sys_modules w)) (Role "system")
                 = Raise KeyError).
  { unfold entry_content. cbn [entry_module]. rewrite without_roles_lookup.
    rewrite bool_decide_eq_true_2; [done|].
    apply (bool_decide_unpack _). vm_compute. exact I. }
  split.
  - apply (save_fails_at (set_sys_modules (without_roles (sys_modules w)) w)
             path [Config "seisflows_parameters"; Config "seisflows_paths"]
             (map Role ["preprocess"; "solver"; "postprocess"; "optimize";
                        "workflow"])
             (Role "system") KeyError Ht eq_refl Hcfg Hsys).
  - cbn [fs set_fs]. apply lookup_insert_eq.
Qed.

Lemma save_after_flush_witness :
  exists w1 w2,
    flush sample_session = (Return tt, w1) /\
    save "ckpt" w1 = (Raise KeyError, w2) /\
    fs w2 !! "/home/ckpt/seisflows_system.p" = Some (File Empty).
Proof.
  exact (save_after_flush sample_session "ckpt" sample_session_state
           (sample_target_ready an_inversion)).
Defined.
